(** * Network log parser: a shallow embedding of [scripts/network_log_parser.py]

    The development follows the layout of the script:
    - Python strings and the character tests used by [re];
    - the fragment of [re] that the [PATTERNS] table needs, as a
      backtracking matcher with Python's priorities (leftmost, alternatives
      in order, greedy and lazy repetition), together with a declarative
      reading that the matcher is proved sound and complete for;
    - [float] on the decimal literals the recognizers can capture;
    - [Counter] and [defaultdict(int)] as insertion-ordered tables;
    - the class [NetworkLogParser]: [load], [parse] and its helpers, [report];
    - the properties.

    Characters.  A Python [str] is a sequence of code points.  The model
    takes [ascii] as the code points U+0000..U+00FF; [\d], [\s], [\w],
    [str.strip] and case folding are those of CPython restricted to that
    range.  Lines with code points above U+00FF are outside the model. *)

From Stdlib Require Import Ascii String DecimalString ZArith QArith Lia Bool
  Arith List.
Import ListNotations.

Set Implicit Arguments.

(** ** Strings *)

Definition str := list ascii.

Coercion list_ascii_of_string : string >-> list.

Open Scope string_scope.
Open Scope list_scope.
Open Scope nat_scope.

Module Chars.

Definition code (c : ascii) : N := N_of_ascii c.

Definition in_range (lo hi : N) (c : ascii) : bool :=
  (N.leb lo (code c) && N.leb (code c) hi)%bool.

Definition is_code (n : N) (c : ascii) : bool := N.eqb (code c) n.

(** [\d]: Unicode decimal digits; below U+0100 these are [0-9]. *)
Definition is_digit (c : ascii) : bool := in_range 48 57 c.

(** [\s] and [str.isspace]: below U+0100 these are U+0009..U+000D,
    U+001C..U+0020, U+0085 and U+00A0. *)
Definition is_space (c : ascii) : bool :=
  in_range 9 13 c || in_range 28 32 c || is_code 133 c || is_code 160 c.

Definition is_upper_az (c : ascii) : bool := in_range 65 90 c.
Definition is_lower_az (c : ascii) : bool := in_range 97 122 c.

(** [str.isalnum] below U+0100: the ASCII letters and digits, the letters
    of the Latin-1 supplement, and the numeric characters U+00B2, U+00B3,
    U+00B9, U+00BC..U+00BE. *)
Definition is_alnum (c : ascii) : bool :=
  is_digit c || is_upper_az c || is_lower_az c
  || is_code 170 c || is_code 178 c || is_code 179 c || is_code 181 c
  || is_code 185 c || is_code 186 c || in_range 188 190 c
  || in_range 192 214 c || in_range 216 246 c || in_range 248 255 c.

(** [\w]: alphanumeric or underscore. *)
Definition is_word (c : ascii) : bool := is_alnum c || is_code 95 c.

(** Simple case mappings below U+0100.  (U+00B5 and U+00FF have upper-case
    forms above U+00FF; neither form belongs to a set of the table, and
    [upper] leaves them as they are.) *)
Definition lower (c : ascii) : ascii :=
  if is_upper_az c || in_range 192 214 c || in_range 216 222 c
  then ascii_of_N (code c + 32) else c.

Definition upper (c : ascii) : ascii :=
  if is_lower_az c || in_range 224 246 c || in_range 248 254 c
  then ascii_of_N (code c - 32) else c.

Definition eqc (a b : ascii) : bool := Ascii.eqb a b.

(** A literal character under [re.IGNORECASE]. *)
Definition eqc_ci (a c : ascii) : bool := eqc (lower c) (lower a).

(** A character set [[...]] given by its members. *)
Definition one_of (set : str) (c : ascii) : bool := existsb (eqc c) set.

(** A character set under [re.IGNORECASE]: a character belongs to it when
    one of its case variants does. *)
Definition ci (f : ascii -> bool) (c : ascii) : bool :=
  f c || f (lower c) || f (upper c).

(** [.] without [re.DOTALL]. *)
Definition not_newline (c : ascii) : bool := negb (is_code 10 c).

Definition is_word_opt (o : option ascii) : bool :=
  match o with Some c => is_word c | None => false end.

End Chars.
Import Chars.

(** ** Regular expressions: the fragment of [re] used by [PATTERNS] *)

Module Re.

(** Every quantifier of the table applies to a single character or
    character set, or is a [?] on a group; [Rep] is the former, [Alt _ Eps]
    the latter. *)
Inductive regex : Type :=
| Eps : regex
| Cls : (ascii -> bool) -> regex
| Bol : regex                                   (* ^ *)
| WordB : regex                                 (* \b *)
| Seq : regex -> regex -> regex
| Alt : regex -> regex -> regex
| Rep : (ascii -> bool) -> nat -> option nat -> bool -> regex
| Grp : string -> regex -> regex.               (* (?P<name>...) *)

Definition caps := list (string * str).

(** A match object: the text of group 0 and the named groups. *)
Record mobj : Type := { m_text : str; m_groups : caps }.

Definition can_more (hi : option nat) : bool :=
  match hi with Some 0 => false | _ => true end.

Definition dec (hi : option nat) : option nat := option_map pred hi.

Section Matcher.
Variable A : Type.

(** Greedy repetition [f{lo,hi}]: take one more character when allowed,
    fall back to stopping here. *)
Fixpoint rep_greedy (f : ascii -> bool) (lo : nat) (hi : option nat)
    (p : option ascii) (s : str) (k : option ascii -> str -> option A)
    : option A :=
  let stop := if lo =? 0 then k p s else None in
  match s with
  | a :: s' =>
      if f a && can_more hi then
        match rep_greedy f (pred lo) (dec hi) (Some a) s' k with
        | Some x => Some x
        | None => stop
        end
      else stop
  | [] => stop
  end.

(** Lazy repetition [f{lo,hi}?]: stop as soon as allowed, fall back to
    taking one more character. *)
Fixpoint rep_lazy (f : ascii -> bool) (lo : nat) (hi : option nat)
    (p : option ascii) (s : str) (k : option ascii -> str -> option A)
    : option A :=
  let more :=
    match s with
    | a :: s' =>
        if f a && can_more hi
        then rep_lazy f (pred lo) (dec hi) (Some a) s' k
        else None
    | [] => None
    end in
  if lo =? 0 then
    match k p s with
    | Some x => Some x
    | None => more
    end
  else more.

(** [rmatch r p s c k]: match [r] at the position whose previous character
    is [p] ([None] at the start of the string) and whose remaining text is
    [s], with the groups [c] captured so far, then continue with [k];
    the first success in priority order is returned. *)
Fixpoint rmatch (r : regex) (p : option ascii) (s : str) (c : caps)
    (k : option ascii -> str -> caps -> option A) : option A :=
  match r with
  | Eps => k p s c
  | Cls f =>
      match s with
      | a :: s' => if f a then k (Some a) s' c else None
      | [] => None
      end
  | Bol => match p with None => k p s c | Some _ => None end
  | WordB =>
      if xorb (is_word_opt p) (is_word_opt (hd_error s)) then k p s c
      else None
  | Seq r1 r2 => rmatch r1 p s c (fun p' s' c' => rmatch r2 p' s' c' k)
  | Alt r1 r2 =>
      match rmatch r1 p s c k with
      | Some x => Some x
      | None => rmatch r2 p s c k
      end
  | Rep f lo hi greedy =>
      (if greedy then rep_greedy else rep_lazy) f lo hi p s
        (fun p' s' => k p' s' c)
  | Grp name r1 =>
      rmatch r1 p s c
        (fun p' s' c' =>
           k p' s' ((name, firstn (length s - length s') s) :: c'))
  end.

End Matcher.

(** [pattern.match] at one position. *)
Definition match_at (r : regex) (p : option ascii) (s : str) : option mobj :=
  rmatch r p s []
    (fun _ s' c => Some {| m_text := firstn (length s - length s') s;
                           m_groups := c |}).

(** [pattern.search]: the first position, left to right, with a match. *)
Fixpoint search_from (r : regex) (p : option ascii) (s : str) : option mobj :=
  match match_at r p s with
  | Some m => Some m
  | None =>
      match s with
      | [] => None
      | a :: s' => search_from r (Some a) s'
      end
  end.

Definition search (r : regex) (line : str) : option mobj :=
  search_from r None line.

(** [pattern.finditer]: non-overlapping matches, left to right.  [skip]
    counts the characters still covered by the previous match.  (After an
    empty match the scan moves on by one character; no pattern iterated by
    the parser matches the empty string.) *)
Fixpoint finditer_from (r : regex) (p : option ascii) (s : str) (skip : nat)
    : list mobj :=
  match s with
  | [] =>
      match skip, match_at r p [] with
      | 0, Some m => [m]
      | _, _ => []
      end
  | a :: s' =>
      match skip with
      | S n => finditer_from r (Some a) s' n
      | 0 =>
          match match_at r p s with
          | Some m => m :: finditer_from r (Some a) s' (pred (length (m_text m)))
          | None => finditer_from r (Some a) s' 0
          end
      end
  end.

Definition finditer (r : regex) (line : str) : list mobj :=
  finditer_from r None line 0.

(** [match.group(name)]; a group that did not take part has no text. *)
Fixpoint assoc (name : string) (c : caps) : option str :=
  match c with
  | [] => None
  | (n, v) :: c' => if String.eqb n name then Some v else assoc name c'
  end.

Definition group (m : mobj) (name : string) : str :=
  match assoc name (m_groups m) with Some v => v | None => [] end.

(** Concrete syntax helpers. *)
Definition chr (a : ascii) : regex := Cls (eqc a).
Definition ichr (a : ascii) : regex := Cls (eqc_ci a).

Fixpoint seq (rs : list regex) : regex :=
  match rs with
  | [] => Eps
  | [r] => r
  | r :: rs' => Seq r (seq rs')
  end.

Fixpoint alts (rs : list regex) : regex :=
  match rs with
  | [] => Eps
  | [r] => r
  | r :: rs' => Alt r (alts rs')
  end.

(** A literal word, case-sensitive and under [re.IGNORECASE]. *)
Definition lit (w : str) : regex := seq (map chr w).
Definition ilit (w : str) : regex := seq (map ichr w).

Definition exactly (n : nat) (f : ascii -> bool) : regex := Rep f n (Some n) true.
Definition between (m n : nat) (f : ascii -> bool) : regex := Rep f m (Some n) true.
Definition at_least (m : nat) (f : ascii -> bool) : regex := Rep f m None true.
Definition plus (f : ascii -> bool) : regex := Rep f 1 None true.
Definition star (f : ascii -> bool) : regex := Rep f 0 None true.
Definition star_lazy (f : ascii -> bool) : regex := Rep f 0 None false.
Definition optc (f : ascii -> bool) : regex := Rep f 0 (Some 1) true.
Definition opt (r : regex) : regex := Alt r Eps.

End Re.
Import Re.

(** ** The [PATTERNS] table *)

Inductive pat_name : Type :=
| timestamp_syslog | timestamp_iso | ip_address | mac_address | port
| firewall_deny | firewall_allow | dns_query | dns_failure
| connection_error | latency | packet_loss | dhcp_event.

Definition is_hex (c : ascii) : bool :=
  is_digit c || in_range 65 70 c || in_range 97 102 c.

Definition is_az (c : ascii) : bool := is_lower_az c || is_upper_az c.

(** [[a-zA-Z0-9._-]] *)
Definition is_domain_char (c : ascii) : bool :=
  is_az c || is_digit c || one_of "._-" c.

(** [\s+] and [\s*] *)
Definition ws1 : regex := plus is_space.
Definition ws0 : regex := star is_space.

(** The table, entry by entry as in the script.  Groups without a name are
    never read by the parser and are kept as plain grouping; the [{5}] of
    [mac_address], the only quantifier on a group other than [?], is
    written out. *)
Definition PATTERNS (name : pat_name) : regex :=
  match name with
  | timestamp_syslog =>
      (* r"^(?P<timestamp>\w{3}\s+\d{1,2}\s+\d{2}:\d{2}:\d{2})" *)
      Seq Bol
        (Grp "timestamp"
           (seq [exactly 3 is_word; ws1; between 1 2 is_digit; ws1;
                 exactly 2 is_digit; chr ":"; exactly 2 is_digit; chr ":";
                 exactly 2 is_digit]))
  | timestamp_iso =>
      (* r"(?P<timestamp>\d{4}-\d{2}-\d{2}[T ]\d{2}:\d{2}:\d{2})" *)
      Grp "timestamp"
        (seq [exactly 4 is_digit; chr "-"; exactly 2 is_digit; chr "-";
              exactly 2 is_digit; Cls (one_of "T ");
              exactly 2 is_digit; chr ":"; exactly 2 is_digit; chr ":";
              exactly 2 is_digit])
  | ip_address =>
      (* r"\b(?P<ip>\d{1,3}\.\d{1,3}\.\d{1,3}\.\d{1,3})\b" *)
      seq [WordB;
           Grp "ip"
             (seq [between 1 3 is_digit; chr "."; between 1 3 is_digit;
                   chr "."; between 1 3 is_digit; chr ".";
                   between 1 3 is_digit]);
           WordB]
  | mac_address =>
      (* r"(?P<mac>([0-9A-Fa-f]{2}[:-]){5}[0-9A-Fa-f]{2})" *)
      let pair := Seq (exactly 2 is_hex) (Cls (one_of ":-")) in
      Grp "mac" (seq [pair; pair; pair; pair; pair; exactly 2 is_hex])
  | port =>
      (* r"(?:SPT|SRC_PORT|sport|srcport|DPT|DST_PORT|dport|dstport)[=: ]+(?P<port>\d{1,5})",
         re.IGNORECASE *)
      seq [alts [ilit "SPT"; ilit "SRC_PORT"; ilit "sport"; ilit "srcport";
                 ilit "DPT"; ilit "DST_PORT"; ilit "dport"; ilit "dstport"];
           plus (ci (one_of "=: "));
           Grp "port" (between 1 5 is_digit)]
  | firewall_deny =>
      (* r"(DROP|DENY|BLOCK|REJECT|REFUSED)", re.IGNORECASE *)
      alts [ilit "DROP"; ilit "DENY"; ilit "BLOCK"; ilit "REJECT";
            ilit "REFUSED"]
  | firewall_allow =>
      (* r"(ACCEPT|ALLOW|PERMIT)", re.IGNORECASE *)
      alts [ilit "ACCEPT"; ilit "ALLOW"; ilit "PERMIT"]
  | dns_query =>
      (* r"(query|lookup|resolve[ds]?)\s+.*?(?P<domain>[a-zA-Z0-9._-]+\.[a-zA-Z]{2,})",
         re.IGNORECASE *)
      seq [alts [ilit "query"; ilit "lookup";
                 Seq (ilit "resolve") (optc (ci (one_of "ds")))];
           ws1;
           star_lazy not_newline;
           Grp "domain"
             (seq [plus (ci is_domain_char); chr ".";
                   at_least 2 (ci is_az)])]
  | dns_failure =>
      (* r"(NXDOMAIN|SERVFAIL|REFUSED|no\s+servers?\s+could\s+be\s+reached|"
         r"timed?\s*out|resolution\s+failed)", re.IGNORECASE *)
      alts [ilit "NXDOMAIN"; ilit "SERVFAIL"; ilit "REFUSED";
            seq [ilit "no"; ws1; ilit "server"; optc (eqc_ci "s"); ws1;
                 ilit "could"; ws1; ilit "be"; ws1; ilit "reached"];
            seq [ilit "time"; optc (eqc_ci "d"); ws0; ilit "out"];
            seq [ilit "resolution"; ws1; ilit "failed"]]
  | connection_error =>
      (* r"(connection\s+(refused|reset|timed?\s*out|closed|failed)|"
         r"unreachable|no\s+route|link\s+down|interface\s+down)",
         re.IGNORECASE *)
      alts [seq [ilit "connection"; ws1;
                 alts [ilit "refused"; ilit "reset";
                       seq [ilit "time"; optc (eqc_ci "d"); ws0; ilit "out"];
                       ilit "closed"; ilit "failed"]];
            ilit "unreachable";
            seq [ilit "no"; ws1; ilit "route"];
            seq [ilit "link"; ws1; ilit "down"];
            seq [ilit "interface"; ws1; ilit "down"]]
  | latency =>
      (* r"(?:time|latency|rtt|delay)[=: ]+(?P<ms>\d+\.?\d* )\s*ms",
         re.IGNORECASE (a blank added inside the group) *)
      seq [alts [ilit "time"; ilit "latency"; ilit "rtt"; ilit "delay"];
           plus (ci (one_of "=: "));
           Grp "ms" (seq [plus is_digit; optc (eqc "."); star is_digit]);
           ws0;
           ilit "ms"]
  | packet_loss =>
      (* r"(?P<loss>\d+\.?\d* )%?\s*(?:packet\s+)?loss", re.IGNORECASE
         (a blank added inside the group) *)
      seq [Grp "loss" (seq [plus is_digit; optc (eqc "."); star is_digit]);
           optc (eqc "%");
           ws0;
           opt (Seq (ilit "packet") ws1);
           ilit "loss"]
  | dhcp_event =>
      (* r"(DHCPDISCOVER|DHCPOFFER|DHCPREQUEST|DHCPACK|DHCPNAK|DHCPRELEASE|DHCPDECLINE)",
         re.IGNORECASE *)
      alts [ilit "DHCPDISCOVER"; ilit "DHCPOFFER"; ilit "DHCPREQUEST";
            ilit "DHCPACK"; ilit "DHCPNAK"; ilit "DHCPRELEASE";
            ilit "DHCPDECLINE"]
  end.

(** [PATTERNS[name].search(line)] as a truth value. *)
Definition matches_pat (name : pat_name) (line : str) : bool :=
  match search (PATTERNS name) line with Some _ => true | None => false end.

(** [PATTERNS[name].findall(line)] for a pattern with one group: the text
    of that group in every match. *)
Definition findall (name : pat_name) (grp : string) (line : str) : list str :=
  map (fun m => group m grp) (finditer (PATTERNS name) line).

(** ** Python values used by the parser *)

Module Py.

(** *** [str] helpers *)

Fixpoint lstrip (s : str) : str :=
  match s with
  | a :: s' => if is_space a then lstrip s' else s
  | [] => []
  end.

(** [s.strip()] *)
Definition strip (s : str) : str := rev (lstrip (rev (lstrip s))).

(** [s[:n]] for [n >= 0] *)
Definition take (n : nat) (s : str) : str := firstn n s.

(** [xs[:n]] for any integer [n]: a negative [n] drops the last [-n]
    items. *)
Definition slice_to (T : Type) (n : Z) (xs : list T) : list T :=
  if (0 <=? n)%Z then firstn (Z.to_nat n) xs
  else firstn (length xs - Z.to_nat (- n)) xs.

(** [str(n)] and [f"{n}"] for an integer. *)
Definition str_of_Z (n : Z) : str :=
  list_ascii_of_string (DecimalString.NilZero.string_of_int (Z.to_int n)).

Definition str_of_nat (n : nat) : str := str_of_Z (Z.of_nat n).

(** [f"{s:<w}"] and [f"{s:>w}"] *)
Definition ljust (w : nat) (s : str) : str := s ++ repeat " "%char (w - length s).
Definition rjust (w : nat) (s : str) : str := repeat " "%char (w - length s) ++ s.

(** ["sep".join(parts)] *)
Fixpoint join (sep : str) (parts : list str) : str :=
  match parts with
  | [] => []
  | [x] => x
  | x :: rest => x ++ sep ++ join sep rest
  end.

(** Comparison of strings by code point, as [sorted] does on keys. *)
Fixpoint str_leb (a b : str) : bool :=
  match a, b with
  | [], _ => true
  | _ :: _, [] => false
  | x :: a', y :: b' =>
      if N.ltb (code x) (code y) then true
      else if N.ltb (code y) (code x) then false
      else str_leb a' b'
  end.

Definition str_eqb (a b : str) : bool :=
  if list_eq_dec ascii_dec a b then true else false.

(** *** [sorted]: a stable sort; [leb x y] says that [x] may stay before
    [y]. *)
Section Sorted.
Variable T : Type.
Variable leb : T -> T -> bool.

Fixpoint insert_sorted (x : T) (l : list T) : list T :=
  match l with
  | [] => [x]
  | y :: l' => if leb x y then x :: l else y :: insert_sorted x l'
  end.

Definition sorted (l : list T) : list T := fold_right insert_sorted [] l.

End Sorted.

(** *** [float] *)

(** A non-negative binary64 value: its exact rational value, or infinity. *)
Inductive pyfloat : Type :=
| Finite : Q -> pyfloat
| Inf : pyfloat.

Definition digit_val (c : ascii) : Z := Z.of_N (code c) - 48.

(** The integer written by a string of digits. *)
Definition digits_val (s : str) : Z :=
  fold_left (fun acc c => 10 * acc + digit_val c)%Z s 0%Z.

Fixpoint span_digits (s : str) : str * str :=
  match s with
  | a :: s' =>
      if is_digit a then let (d, r) := span_digits s' in (a :: d, r)
      else ([], s)
  | [] => ([], [])
  end.

(** A plain decimal literal (one or more digits, then optionally a point
    and any number of digits) as numerator and number of fractional
    digits. *)
Definition parse_decimal (s : str) : option (Z * nat) :=
  let (ip, r) := span_digits s in
  match ip, r with
  | [], _ => None
  | _, [] => Some (digits_val ip, 0)
  | _, dot :: fr =>
      if eqc dot "." then
        let (fp, r') := span_digits fr in
        match r' with
        | [] => Some (digits_val (ip ++ fp), length fp)
        | _ => None
        end
      else None
  end.

(** [n / d] rounded to the nearest integer, ties to even ([d > 0]). *)
Definition round_half_even (n d : Z) : Z :=
  let q := (n / d)%Z in
  let r := (n mod d)%Z in
  if (2 * r <? d)%Z then q
  else if (d <? 2 * r)%Z then (q + 1)%Z
  else if Z.even q then q else (q + 1)%Z.

(** [n / d] divided by [2 ^ e], as a fraction. *)
Definition scale2 (n d e : Z) : Z * Z :=
  if (0 <=? e)%Z then (n, d * 2 ^ e)%Z else (n * 2 ^ (- e), d)%Z.

(** Round-to-nearest-even conversion of the rational [n / d] ([n >= 0],
    [d > 0]) to binary64: 53 significant bits, least exponent -1074,
    overflow to infinity from [2 ^ 1024]. *)
Definition to_binary64 (n d : Z) : pyfloat :=
  if (n =? 0)%Z then Finite 0
  else
    let e0 := (Z.log2 n - Z.log2 d)%Z in
    let (n0, d0) := scale2 n d e0 in
    let e := if (d0 <=? n0)%Z then e0 else (e0 - 1)%Z in
    let qe := (Z.max e (-1022) - 52)%Z in
    let (n1, d1) := scale2 n d qe in
    let m := round_half_even n1 d1 in
    if (0 <=? qe)%Z then
      if (2 ^ 1024 <=? m * 2 ^ qe)%Z then Inf
      else Finite (Qred (Qmake (m * 2 ^ qe) 1))
    else Finite (Qred (Qmake m (Z.to_pos (2 ^ (- qe))))).

(** [float(s)] on plain decimal literals, the only strings the parser
    passes to it (see [latency_payload], [loss_payload]); [None] is
    [ValueError].  Signs,
    exponents, blanks, underscores and the special values, which [float]
    also accepts, are not modelled and are reported as [None]. *)
Definition py_float (s : str) : option pyfloat :=
  match parse_decimal s with
  | Some (n, k) => Some (to_binary64 n (10 ^ Z.of_nat k))
  | None => None
  end.

(** [x > n] for a float [x] and an integer [n] (Python compares the exact
    values). *)
Definition gt_int (x : pyfloat) (n : Z) : bool :=
  match x with
  | Inf => true
  | Finite q => (n * Zpos (Qden q) <? Qnum q)%Z
  end.

(** [-x < -y], the order used by [sorted(..., key=lambda x: -x[1])]. *)
Definition float_gtb (x y : pyfloat) : bool :=
  match x, y with
  | Inf, Inf => false
  | Inf, Finite _ => true
  | Finite _, Inf => false
  | Finite a, Finite b => (Qnum b * Zpos (Qden a) <? Qnum a * Zpos (Qden b))%Z
  end.

(** [f"{x:.1f}"] for a non-negative float. *)
Definition format_1f (x : pyfloat) : str :=
  match x with
  | Inf => "inf"
  | Finite q =>
      let t := round_half_even (10 * Qnum q) (Zpos (Qden q)) in
      str_of_Z (t / 10) ++ "." ++ str_of_Z (t mod 10)
  end.

(** *** [Counter] and [defaultdict(int)]: tables in insertion order *)

Definition Counter := list (str * nat).

(** [c[key]], where a missing key counts 0. *)
Fixpoint get (c : Counter) (key : str) : nat :=
  match c with
  | [] => 0
  | (k, v) :: c' => if str_eqb k key then v else get c' key
  end.

(** [c[key] += 1]: an existing key keeps its place, a new key goes last. *)
Fixpoint incr (key : str) (c : Counter) : Counter :=
  match c with
  | [] => [(key, 1)]
  | (k, v) :: c' =>
      if str_eqb k key then (k, S v) :: c' else (k, v) :: incr key c'
  end.

(** [c.most_common(n)] is [heapq.nlargest(n, c.items(), key=count)]: the
    first [n] items of the stable sort by decreasing count; no item when
    [n <= 0]. *)
Definition by_count_desc (x y : str * nat) : bool := snd y <=? snd x.

Definition most_common (n : Z) (c : Counter) : list (str * nat) :=
  firstn (Z.to_nat n) (sorted by_count_desc c).

End Py.
Import Py.

(** ** Outcomes of a run: normal completion, [sys.exit], or an uncaught
    [ValueError] *)

Inductive outcome (A : Type) : Type :=
| Ok : A -> outcome A
| SysExit : nat -> outcome A
| ValueError : outcome A.

Arguments Ok {A} _.
Arguments SysExit {A} _.
Arguments ValueError {A}.

Definition bind (A B : Type) (x : outcome A) (f : A -> outcome B) : outcome B :=
  match x with
  | Ok a => f a
  | SysExit n => SysExit n
  | ValueError => ValueError
  end.

Notation "x <- e ;; k" := (bind e (fun x => k))
  (at level 61, e at next level, right associativity).

(** ** The class [NetworkLogParser] *)

(** [(line_number, text_snippet)] and [(line_number, value, text_snippet)] *)
Definition record := (nat * str)%type.
Definition num_record := (nat * pyfloat * str)%type.

Record NetworkLogParser : Type := mkParser {
  filepath : str;
  lines : list str;
  total_lines : nat;
  denied_entries : list record;
  allowed_entries : list record;
  connection_errors : list record;
  dns_failures : list record;
  dns_queries : list record;
  high_latency : list num_record;
  packet_loss_entries : list num_record;
  dhcp_events : list record;
  source_ips : Counter;
  dest_ips : Counter;
  denied_ips : Counter;
  error_timeline : Counter;
  ports_targeted : Counter
}.

(** [__init__] *)
Definition init (path : str) : NetworkLogParser :=
  mkParser path [] 0 [] [] [] [] [] [] [] [] [] [] [] [] [].

(** Field updates, one per attribute the methods assign to. *)
Section Setters.
Variable self : NetworkLogParser.

Definition set_lines (v : list str) (n : nat) : NetworkLogParser :=
  mkParser (filepath self) v n (denied_entries self)
    (allowed_entries self) (connection_errors self) (dns_failures self)
    (dns_queries self) (high_latency self) (packet_loss_entries self)
    (dhcp_events self) (source_ips self) (dest_ips self) (denied_ips self)
    (error_timeline self) (ports_targeted self).

Definition set_denied_entries (v : list record) : NetworkLogParser :=
  mkParser (filepath self) (lines self) (total_lines self) v
    (allowed_entries self) (connection_errors self) (dns_failures self)
    (dns_queries self) (high_latency self) (packet_loss_entries self)
    (dhcp_events self) (source_ips self) (dest_ips self) (denied_ips self)
    (error_timeline self) (ports_targeted self).

Definition set_allowed_entries (v : list record) : NetworkLogParser :=
  mkParser (filepath self) (lines self) (total_lines self) (denied_entries self)
    v (connection_errors self) (dns_failures self)
    (dns_queries self) (high_latency self) (packet_loss_entries self)
    (dhcp_events self) (source_ips self) (dest_ips self) (denied_ips self)
    (error_timeline self) (ports_targeted self).

Definition set_connection_errors (v : list record) : NetworkLogParser :=
  mkParser (filepath self) (lines self) (total_lines self) (denied_entries self)
    (allowed_entries self) v (dns_failures self)
    (dns_queries self) (high_latency self) (packet_loss_entries self)
    (dhcp_events self) (source_ips self) (dest_ips self) (denied_ips self)
    (error_timeline self) (ports_targeted self).

Definition set_dns_failures (v : list record) : NetworkLogParser :=
  mkParser (filepath self) (lines self) (total_lines self) (denied_entries self)
    (allowed_entries self) (connection_errors self) v
    (dns_queries self) (high_latency self) (packet_loss_entries self)
    (dhcp_events self) (source_ips self) (dest_ips self) (denied_ips self)
    (error_timeline self) (ports_targeted self).

Definition set_dns_queries (v : list record) : NetworkLogParser :=
  mkParser (filepath self) (lines self) (total_lines self) (denied_entries self)
    (allowed_entries self) (connection_errors self) (dns_failures self)
    v (high_latency self) (packet_loss_entries self)
    (dhcp_events self) (source_ips self) (dest_ips self) (denied_ips self)
    (error_timeline self) (ports_targeted self).

Definition set_high_latency (v : list num_record) : NetworkLogParser :=
  mkParser (filepath self) (lines self) (total_lines self) (denied_entries self)
    (allowed_entries self) (connection_errors self) (dns_failures self)
    (dns_queries self) v (packet_loss_entries self)
    (dhcp_events self) (source_ips self) (dest_ips self) (denied_ips self)
    (error_timeline self) (ports_targeted self).

Definition set_packet_loss_entries (v : list num_record) : NetworkLogParser :=
  mkParser (filepath self) (lines self) (total_lines self) (denied_entries self)
    (allowed_entries self) (connection_errors self) (dns_failures self)
    (dns_queries self) (high_latency self) v
    (dhcp_events self) (source_ips self) (dest_ips self) (denied_ips self)
    (error_timeline self) (ports_targeted self).

Definition set_dhcp_events (v : list record) : NetworkLogParser :=
  mkParser (filepath self) (lines self) (total_lines self) (denied_entries self)
    (allowed_entries self) (connection_errors self) (dns_failures self)
    (dns_queries self) (high_latency self) (packet_loss_entries self)
    v (source_ips self) (dest_ips self) (denied_ips self)
    (error_timeline self) (ports_targeted self).

Definition set_source_ips (v : Counter) : NetworkLogParser :=
  mkParser (filepath self) (lines self) (total_lines self) (denied_entries self)
    (allowed_entries self) (connection_errors self) (dns_failures self)
    (dns_queries self) (high_latency self) (packet_loss_entries self)
    (dhcp_events self) v (dest_ips self) (denied_ips self)
    (error_timeline self) (ports_targeted self).

Definition set_dest_ips (v : Counter) : NetworkLogParser :=
  mkParser (filepath self) (lines self) (total_lines self) (denied_entries self)
    (allowed_entries self) (connection_errors self) (dns_failures self)
    (dns_queries self) (high_latency self) (packet_loss_entries self)
    (dhcp_events self) (source_ips self) v (denied_ips self)
    (error_timeline self) (ports_targeted self).

Definition set_denied_ips (v : Counter) : NetworkLogParser :=
  mkParser (filepath self) (lines self) (total_lines self) (denied_entries self)
    (allowed_entries self) (connection_errors self) (dns_failures self)
    (dns_queries self) (high_latency self) (packet_loss_entries self)
    (dhcp_events self) (source_ips self) (dest_ips self) v
    (error_timeline self) (ports_targeted self).

Definition set_error_timeline (v : Counter) : NetworkLogParser :=
  mkParser (filepath self) (lines self) (total_lines self) (denied_entries self)
    (allowed_entries self) (connection_errors self) (dns_failures self)
    (dns_queries self) (high_latency self) (packet_loss_entries self)
    (dhcp_events self) (source_ips self) (dest_ips self) (denied_ips self)
    v (ports_targeted self).

Definition set_ports_targeted (v : Counter) : NetworkLogParser :=
  mkParser (filepath self) (lines self) (total_lines self) (denied_entries self)
    (allowed_entries self) (connection_errors self) (dns_failures self)
    (dns_queries self) (high_latency self) (packet_loss_entries self)
    (dhcp_events self) (source_ips self) (dest_ips self) (denied_ips self)
    (error_timeline self) v.

End Setters.

(** *** Loading *)

Definition LF : ascii := ascii_of_N 10.
Definition CR : ascii := ascii_of_N 13.

(** [fh.readlines()] on a text file opened with the default [newline]:
    a line ends at ["\n"], ["\r\n"] or ["\r"], each read as ["\n"] and kept
    at the end of its line; [cur] is the current line, reversed, and
    [after_cr] says that the previous character was a ["\r"]. *)
Fixpoint readlines_aux (cur : str) (after_cr : bool) (text : str) : list str :=
  match text with
  | [] => match cur with [] => [] | _ => [rev cur] end
  | a :: text' =>
      if eqc a LF then
        if after_cr then readlines_aux cur false text'
        else rev (LF :: cur) :: readlines_aux [] false text'
      else if eqc a CR then rev (LF :: cur) :: readlines_aux [] true text'
      else readlines_aux (a :: cur) false text'
  end.

Definition readlines (text : str) : list str := readlines_aux [] false text.

(** [load]: [file] is the decoded text of [self.filepath], or [None] when
    [os.path.isfile] fails and the program exits with status 1. *)
Definition load (file : option str) (self : NetworkLogParser)
    : outcome NetworkLogParser :=
  match file with
  | None => SysExit 1
  | Some text =>
      let ls := readlines text in
      Ok (set_lines self ls (length ls))
  end.

(** *** Parsing: the per-line helpers *)

(** [_extract_ips].  The body of the loop does not use the loop variable:
    it scans the line again on every iteration. *)
Definition _extract_ips (line : str) (self : NetworkLogParser)
    : NetworkLogParser :=
  fold_left
    (fun self _match =>
       let ips := findall ip_address "ip" line in
       let self :=
         if 1 <=? length ips
         then set_source_ips self (incr (nth 0 ips []) (source_ips self))
         else self in
       if 2 <=? length ips
       then set_dest_ips self (incr (nth 1 ips []) (dest_ips self))
       else self)
    (finditer (PATTERNS ip_address) line) self.

(** [_extract_ports] *)
Definition _extract_ports (line : str) (self : NetworkLogParser)
    : NetworkLogParser :=
  fold_left
    (fun self m =>
       set_ports_targeted self (incr (group m "port") (ports_targeted self)))
    (finditer (PATTERNS port) line) self.

(** [_check_firewall] *)
Definition _check_firewall (line : str) (line_num : nat)
    (self : NetworkLogParser) : NetworkLogParser :=
  if matches_pat firewall_deny line then
    let self :=
      set_denied_entries self (denied_entries self ++ [(line_num, strip line)]) in
    let ips := findall ip_address "ip" line in
    fold_left
      (fun self ip => set_denied_ips self (incr ip (denied_ips self)))
      ips self
  else if matches_pat firewall_allow line then
    set_allowed_entries self (allowed_entries self ++ [(line_num, strip line)])
  else self.

(** [_check_dns] *)
Definition _check_dns (line : str) (line_num : nat)
    (self : NetworkLogParser) : NetworkLogParser :=
  if matches_pat dns_failure line then
    set_dns_failures self (dns_failures self ++ [(line_num, strip line)])
  else if matches_pat dns_query line then
    set_dns_queries self (dns_queries self ++ [(line_num, strip line)])
  else self.

(** [_check_connection_errors] *)
Definition _check_connection_errors (line : str) (line_num : nat)
    (self : NetworkLogParser) : NetworkLogParser :=
  if matches_pat connection_error line then
    set_connection_errors self
      (connection_errors self ++ [(line_num, strip line)])
  else self.

(** [_check_latency]; [float] is not guarded by a handler, so its
    [ValueError] would leave the method. *)
Definition _check_latency (line : str) (line_num : nat)
    (self : NetworkLogParser) : outcome NetworkLogParser :=
  match search (PATTERNS latency) line with
  | Some m =>
      match py_float (group m "ms") with
      | Some ms =>
          if gt_int ms 100 then
            Ok (set_high_latency self
                  (high_latency self ++ [(line_num, ms, strip line)]))
          else Ok self
      | None => ValueError
      end
  | None => Ok self
  end.

(** [_check_packet_loss] *)
Definition _check_packet_loss (line : str) (line_num : nat)
    (self : NetworkLogParser) : outcome NetworkLogParser :=
  match search (PATTERNS packet_loss) line with
  | Some m =>
      match py_float (group m "loss") with
      | Some loss =>
          if gt_int loss 0 then
            Ok (set_packet_loss_entries self
                  (packet_loss_entries self ++ [(line_num, loss, strip line)]))
          else Ok self
      | None => ValueError
      end
  | None => Ok self
  end.

(** [_check_dhcp] *)
Definition _check_dhcp (line : str) (line_num : nat)
    (self : NetworkLogParser) : NetworkLogParser :=
  if matches_pat dhcp_event line then
    set_dhcp_events self (dhcp_events self ++ [(line_num, strip line)])
  else self.

(** [_extract_timestamp_bucket]: the loop over the two pattern names,
    left by [break] at the first name that matches. *)
Fixpoint timestamp_loop (names : list pat_name) (line : str)
    (self : NetworkLogParser) : NetworkLogParser :=
  match names with
  | [] => self
  | pat :: rest =>
      match search (PATTERNS pat) line with
      | Some m =>
          let ts := group m "timestamp" in
          let hour :=
            match pat with
            | timestamp_iso => take 13 ts
            | _ => take 10 ts
            end in
          if matches_pat firewall_deny line
             || matches_pat connection_error line
          then set_error_timeline self (incr hour (error_timeline self))
          else self
      | None => timestamp_loop rest line self
      end
  end.

Definition _extract_timestamp_bucket (line : str) (self : NetworkLogParser)
    : NetworkLogParser :=
  timestamp_loop [timestamp_iso; timestamp_syslog] line self.

(** *** Parsing: the pass over the file *)

(** The body of the loop of [parse]. *)
Definition parse_line (line_num : nat) (line : str) (self : NetworkLogParser)
    : outcome NetworkLogParser :=
  let self := _extract_ips line self in
  let self := _extract_ports line self in
  let self := _check_firewall line line_num self in
  let self := _check_dns line line_num self in
  let self := _check_connection_errors line line_num self in
  self <- _check_latency line line_num self ;;
  self <- _check_packet_loss line line_num self ;;
  let self := _check_dhcp line line_num self in
  Ok (_extract_timestamp_bucket line self).

(** [for line_num, line in enumerate(ls, start=line_num)] *)
Fixpoint parse_loop (line_num : nat) (ls : list str) (self : NetworkLogParser)
    : outcome NetworkLogParser :=
  match ls with
  | [] => Ok self
  | line :: rest =>
      self <- parse_line line_num line self ;;
      parse_loop (S line_num) rest self
  end.

(** [parse] *)
Definition parse (self : NetworkLogParser) : outcome NetworkLogParser :=
  parse_loop 1 (lines self) self.

(** *** Reporting *)

Definition nl : str := [LF].

(** The dash of the sample headers is U+2014, outside the modelled range
    of characters; it only occurs in these constant headers and is written
    as the three bytes of its UTF-8 encoding. *)
Definition em_dash : str := [ascii_of_N 226; ascii_of_N 128; ascii_of_N 148].

Definition border : str := repeat "="%char 72.

(** The sections of [report], in the order of the method; [now] is the text
    of [datetime.now().strftime('%Y-%m-%d %H:%M:%S')]. *)
Section Report.
Variable self : NetworkLogParser.
Variable top_n : Z.
Variable now : str.

Definition header_lines : list str :=
  [ border;
    "  NETWORK LOG TROUBLESHOOTING REPORT" : str;
    "  Source: " ++ filepath self;
    "  Total lines parsed: " ++ str_of_nat (total_lines self);
    "  Generated: " ++ now;
    border ].

Definition summary_lines : list str :=
  [ nl ++ "[SUMMARY]";
    "  Firewall DENY/DROP entries : " ++ str_of_nat (length (denied_entries self));
    "  Firewall ALLOW entries     : " ++ str_of_nat (length (allowed_entries self));
    "  Connection errors          : " ++ str_of_nat (length (connection_errors self));
    "  DNS failures               : " ++ str_of_nat (length (dns_failures self));
    "  High-latency entries (>100ms): " ++ str_of_nat (length (high_latency self));
    "  Packet-loss entries (>0%)  : " ++ str_of_nat (length (packet_loss_entries self));
    "  DHCP events                : " ++ str_of_nat (length (dhcp_events self)) ].

(** [if collection: sections.append(title); for ...: sections.append(...)] *)
Definition section_if (T : Type) (collection : list T) (title : str)
    (rows : list str) : list str :=
  match collection with
  | [] => []
  | _ :: _ => title :: rows
  end.

Definition top_title (what : str) : str :=
  nl ++ "[TOP " ++ str_of_Z top_n ++ what.

Definition ip_row (unit : str) (item : str * nat) : str :=
  "  " ++ ljust 20 (fst item) ++ " " ++ str_of_nat (snd item) ++ unit.

Definition denied_ips_section : list str :=
  section_if (denied_ips self) (top_title " IPs IN DENY/DROP ENTRIES]")
    (map (ip_row " hits") (most_common top_n (denied_ips self))).

Definition source_ips_section : list str :=
  section_if (source_ips self) (top_title " SOURCE IPs]")
    (map (ip_row " occurrences") (most_common top_n (source_ips self))).

Definition dest_ips_section : list str :=
  section_if (dest_ips self) (top_title " DESTINATION IPs]")
    (map (ip_row " occurrences") (most_common top_n (dest_ips self))).

Definition port_row (item : str * nat) : str :=
  "  Port " ++ ljust 10 (fst item) ++ " " ++ str_of_nat (snd item)
  ++ " occurrences".

Definition ports_section : list str :=
  section_if (ports_targeted self) (top_title " TARGETED PORTS]")
    (map port_row (most_common top_n (ports_targeted self))).

Definition timeline_row (bucket : str) : str :=
  let count := get (error_timeline self) bucket in
  let bar := repeat "#"%char (Nat.min count 60) in
  "  " ++ bucket ++ "  " ++ rjust 5 (str_of_nat count) ++ "  " ++ bar.

Definition timeline_section : list str :=
  section_if (error_timeline self)
    (nl ++ "[ERROR TIMELINE (errors per time bucket)]")
    (map timeline_row (sorted str_leb (map fst (error_timeline self)))).

Definition sample_title (what : str) : str :=
  nl ++ what ++ em_dash ++ " showing first " ++ str_of_Z top_n ++ "]".

Definition sample_row (r : record) : str :=
  "  Line " ++ str_of_nat (fst r) ++ ": " ++ take 120 (snd r).

Definition num_row (unit : str) (r : num_record) : str :=
  "  Line " ++ str_of_nat (fst (fst r)) ++ " (" ++ format_1f (snd (fst r))
  ++ unit ++ take 120 (snd r).

(** [sorted(entries, key=lambda x: -x[1])] *)
Definition by_value_desc (entries : list num_record) : list num_record :=
  sorted (fun x y => negb (float_gtb (snd (fst y)) (snd (fst x)))) entries.

Definition connection_errors_section : list str :=
  section_if (connection_errors self) (sample_title "[CONNECTION ERRORS ")
    (map sample_row (slice_to top_n (connection_errors self))).

Definition dns_failures_section : list str :=
  section_if (dns_failures self) (sample_title "[DNS FAILURES ")
    (map sample_row (slice_to top_n (dns_failures self))).

Definition high_latency_section : list str :=
  section_if (high_latency self) (sample_title "[HIGH LATENCY ENTRIES ")
    (map (num_row " ms): ")
       (slice_to top_n (by_value_desc (high_latency self)))).

Definition packet_loss_section : list str :=
  section_if (packet_loss_entries self) (sample_title "[PACKET LOSS ENTRIES ")
    (map (num_row "% loss): ")
       (slice_to top_n (by_value_desc (packet_loss_entries self)))).

Definition dhcp_events_section : list str :=
  section_if (dhcp_events self) (sample_title "[DHCP EVENTS ")
    (map sample_row (slice_to top_n (dhcp_events self))).

Definition denied_entries_section : list str :=
  section_if (denied_entries self) (sample_title "[FIREWALL DENY/DROP SAMPLE ")
    (map sample_row (slice_to top_n (denied_entries self))).

Definition footer_lines : list str :=
  [ nl ++ border; "  END OF REPORT" : str; border ++ nl ].

(** The list [sections] at the end of [report]. *)
Definition report_sections : list str :=
  header_lines ++ summary_lines
  ++ denied_ips_section ++ source_ips_section ++ dest_ips_section
  ++ ports_section ++ timeline_section
  ++ connection_errors_section ++ dns_failures_section
  ++ high_latency_section ++ packet_loss_section
  ++ dhcp_events_section ++ denied_entries_section
  ++ footer_lines.

(** [report] *)
Definition report : str := join nl report_sections.

End Report.

(** *** The pipeline of [main]: load, parse, report *)

Definition analyse (path : str) (file : option str) : outcome NetworkLogParser :=
  self <- load file (init path) ;;
  parse self.

Definition main (path : str) (file : option str) (top_n : Z) (now : str)
    : outcome str :=
  self <- analyse path file ;;
  Ok (report self top_n now).

(** * Specifications *)

(** ** What a regular expression denotes *)

Module ReSem.

(** The previous character after reading [t] from a position whose
    previous character is [p]. *)
Definition prev_after (t : str) (p : option ascii) : option ascii :=
  fold_left (fun _ a => Some a) t p.

Definition within (hi : option nat) (n : nat) : Prop :=
  match hi with Some h => n <= h | None => True end.

(** [sem r p s c p' s' c']: from the position [(p, s)] with groups [c],
    [r] can read up to the position [(p', s')] and leave the groups [c']. *)
Fixpoint sem (r : regex) (p : option ascii) (s : str) (c : caps)
    (p' : option ascii) (s' : str) (c' : caps) : Prop :=
  match r with
  | Eps => p' = p /\ s' = s /\ c' = c
  | Cls f => exists a, s = a :: s' /\ f a = true /\ p' = Some a /\ c' = c
  | Bol => p = None /\ p' = p /\ s' = s /\ c' = c
  | WordB =>
      xorb (is_word_opt p) (is_word_opt (hd_error s)) = true
      /\ p' = p /\ s' = s /\ c' = c
  | Seq r1 r2 =>
      exists p1 s1 c1, sem r1 p s c p1 s1 c1 /\ sem r2 p1 s1 c1 p' s' c'
  | Alt r1 r2 => sem r1 p s c p' s' c' \/ sem r2 p s c p' s' c'
  | Rep f lo hi _ =>
      exists t, s = t ++ s' /\ forallb f t = true /\ lo <= length t
                /\ within hi (length t) /\ p' = prev_after t p /\ c' = c
  | Grp name r1 =>
      exists c1, sem r1 p s c p' s' c1
                 /\ c' = (name, firstn (length s - length s') s) :: c1
  end.

(** A match of [r] somewhere in [line]: the text before it, the matched
    text, the text after it and the groups. *)
Definition occurs (r : regex) (line pre mid post : str) (c : caps) : Prop :=
  line = pre ++ mid ++ post
  /\ exists p', sem r (prev_after pre None) (mid ++ post) [] p' post c.

(** The expression captures no group. *)
Fixpoint no_group (r : regex) : bool :=
  match r with
  | Grp _ _ => false
  | Seq r1 r2 | Alt r1 r2 => no_group r1 && no_group r2
  | _ => true
  end.

End ReSem.
Import ReSem.

(** ** Predicates the properties are stated with *)

Definition str_eq_dec : forall a b : str, {a = b} + {a <> b} :=
  list_eq_dec ascii_dec.

(** The body of the groups [ms] and [loss]: digits, an optional point,
    digits. *)
Definition decimal_body : regex :=
  seq [plus is_digit; optc (eqc "."); star is_digit].

(** A plain decimal literal: digits, then optionally a point and digits. *)
Definition decimal_literal (s : str) : Prop :=
  exists ip fp,
    ip <> [] /\ forallb is_digit ip = true /\ forallb is_digit fp = true
    /\ (s = ip ++ fp \/ s = ip ++ "." ++ fp).

(** The exact value of a float exceeds the integer [n]. *)
Definition float_gt (x : pyfloat) (n : Z) : Prop :=
  match x with
  | Inf => True
  | Finite q => (inject_Z n < q)%Q
  end.

(** [w] is a prefix of [s]; [w] occurs in [s]. *)
Fixpoint is_prefix (w s : str) : bool :=
  match w, s with
  | [], _ => true
  | a :: w', b :: s' => eqc a b && is_prefix w' s'
  | _ :: _, [] => false
  end.

Fixpoint contains (w s : str) : bool :=
  is_prefix w s || match s with [] => false | _ :: s' => contains w s' end.

(** [w in line.lower()], for a lower-case [w]. *)
Definition contains_ci (w line : str) : bool := contains w (map lower line).

(** The month abbreviations of a syslog timestamp. *)
Definition month_abbrevs : list str :=
  ["Jan" : str; "Feb" : str; "Mar" : str; "Apr" : str; "May" : str;
   "Jun" : str; "Jul" : str; "Aug" : str; "Sep" : str; "Oct" : str;
   "Nov" : str; "Dec" : str].

Definition starts_with_month (line : str) : bool :=
  existsb (fun m => is_prefix m line) month_abbrevs.

(** What [timestamp_syslog] accepts: three word characters, blanks, one or
    two digits, blanks, and three pairs of digits separated by colons, at
    the start of the line. *)
Definition syslog_shape (line : str) : Prop :=
  exists w b1 d b2 hh mm ss rest,
    line = w ++ b1 ++ d ++ b2 ++ hh ++ ":" ++ mm ++ ":" ++ ss ++ rest
    /\ length w = 3 /\ forallb is_word w = true
    /\ 1 <= length b1 /\ forallb is_space b1 = true
    /\ 1 <= length d <= 2 /\ forallb is_digit d = true
    /\ 1 <= length b2 /\ forallb is_space b2 = true
    /\ length hh = 2 /\ forallb is_digit hh = true
    /\ length mm = 2 /\ forallb is_digit mm = true
    /\ length ss = 2 /\ forallb is_digit ss = true.

(** The bucket of a line: the ISO pattern first, else the syslog pattern. *)
Definition timestamp_bucket (line : str) : option str :=
  match search (PATTERNS timestamp_iso) line with
  | Some m => Some (take 13 (group m "timestamp"))
  | None =>
      match search (PATTERNS timestamp_syslog) line with
      | Some m => Some (take 10 (group m "timestamp"))
      | None => None
      end
  end.

(** The line counts as an error for the timeline. *)
Definition is_error_line (line : str) : bool :=
  matches_pat firewall_deny line || matches_pat connection_error line.

(** The state before the numeric checks of a line. *)
Definition before_numeric (line_num : nat) (line : str)
    (self : NetworkLogParser) : NetworkLogParser :=
  _check_connection_errors line line_num
    (_check_dns line line_num
       (_check_firewall line line_num
          (_extract_ports line (_extract_ips line self)))).

(** The body of the loop of [_extract_ips], given the list [ips] that its
    [findall] returns; it does not depend on the match it is run for. *)
Definition extract_ips_body (ips : list str) (self : NetworkLogParser)
    : NetworkLogParser :=
  let self :=
    if 1 <=? length ips
    then set_source_ips self (incr (nth 0 ips []) (source_ips self))
    else self in
  if 2 <=? length ips
  then set_dest_ips self (incr (nth 1 ips []) (dest_ips self))
  else self.

(** The item has count [v]. *)
Definition has_count (v : nat) (item : str * nat) : bool := snd item =? v.

(** The line of Scenario 1. *)
Definition scenario1 : str :=
  "2024-05-01T10:15:00 DROP SRC=10.0.0.5 DST=10.0.0.9 SPT=443 DPT=8080".

(** A file of Scenario 4: a deny line and a connection error, neither with
    a timestamp. *)
Definition scenario4 : str :=
  "kernel: DROP IN=eth0 SRC=10.0.0.5 DST=10.0.0.9" ++ nl
  ++ "sshd: connection reset by peer" ++ nl.

(** Every record of the eight lists has its line number in [lo..hi]. *)
Definition line_numbers_within (lo hi : nat) (self : NetworkLogParser) : Prop :=
  let ok (n : nat) := lo <= n <= hi in
  Forall (fun r => ok (fst r)) (denied_entries self)
  /\ Forall (fun r => ok (fst r)) (allowed_entries self)
  /\ Forall (fun r => ok (fst r)) (connection_errors self)
  /\ Forall (fun r => ok (fst r)) (dns_failures self)
  /\ Forall (fun r => ok (fst r)) (dns_queries self)
  /\ Forall (fun r : num_record => ok (fst (fst r))) (high_latency self)
  /\ Forall (fun r : num_record => ok (fst (fst r))) (packet_loss_entries self)
  /\ Forall (fun r => ok (fst r)) (dhcp_events self).

(** The invariant of the pass over a file: the range of the line numbers
    recorded so far, and the two attributes set by [load]. *)
Record pass_bounds : Type := {
  first_line : nat;
  last_line : nat;
  line_count : nat;
  file_lines : list str
}.

Definition pass_invariant (b : pass_bounds) (self : NetworkLogParser) : Prop :=
  line_numbers_within (first_line b) (last_line b) self
  /\ total_lines self = line_count b /\ lines self = file_lines b.

(** The number of line ends in a text: ["\n"], ["\r\n"] and ["\r"] each
    count once; [after_cr] as in [readlines_aux]. *)
Fixpoint count_line_ends (after_cr : bool) (text : str) : nat :=
  match text with
  | [] => 0
  | a :: text' =>
      if eqc a LF then
        (if after_cr then 0 else 1) + count_line_ends false text'
      else if eqc a CR then 1 + count_line_ends true text'
      else count_line_ends false text'
  end.

(** The text ends in the middle of a line. *)
Definition ends_unterminated (text : str) : bool :=
  match rev text with
  | [] => false
  | a :: _ => negb (eqc a LF || eqc a CR)
  end.

(** The sections of the report that depend on a collection. *)
Inductive section_id : Type :=
| SecDeniedIps | SecSourceIps | SecDestIps | SecPorts | SecTimeline
| SecConnectionErrors | SecDnsFailures | SecHighLatency | SecPacketLoss
| SecDhcpEvents | SecDeniedEntries.

Definition collection_empty (self : NetworkLogParser) (sec : section_id) : bool :=
  match sec with
  | SecDeniedIps => length (denied_ips self) =? 0
  | SecSourceIps => length (source_ips self) =? 0
  | SecDestIps => length (dest_ips self) =? 0
  | SecPorts => length (ports_targeted self) =? 0
  | SecTimeline => length (error_timeline self) =? 0
  | SecConnectionErrors => length (connection_errors self) =? 0
  | SecDnsFailures => length (dns_failures self) =? 0
  | SecHighLatency => length (high_latency self) =? 0
  | SecPacketLoss => length (packet_loss_entries self) =? 0
  | SecDhcpEvents => length (dhcp_events self) =? 0
  | SecDeniedEntries => length (denied_entries self) =? 0
  end.

(** The title line of a section, as [report] writes it. *)
Definition section_title (top_n : Z) (sec : section_id) : str :=
  match sec with
  | SecDeniedIps => top_title top_n " IPs IN DENY/DROP ENTRIES]"
  | SecSourceIps => top_title top_n " SOURCE IPs]"
  | SecDestIps => top_title top_n " DESTINATION IPs]"
  | SecPorts => top_title top_n " TARGETED PORTS]"
  | SecTimeline => nl ++ "[ERROR TIMELINE (errors per time bucket)]"
  | SecConnectionErrors => sample_title top_n "[CONNECTION ERRORS "
  | SecDnsFailures => sample_title top_n "[DNS FAILURES "
  | SecHighLatency => sample_title top_n "[HIGH LATENCY ENTRIES "
  | SecPacketLoss => sample_title top_n "[PACKET LOSS ENTRIES "
  | SecDhcpEvents => sample_title top_n "[DHCP EVENTS "
  | SecDeniedEntries => sample_title top_n "[FIREWALL DENY/DROP SAMPLE "
  end.

(** The rows a section contributes: the lines of the report that belong to
    it, title included. *)
Definition section_lines (self : NetworkLogParser) (top_n : Z)
    (sec : section_id) : list str :=
  match sec with
  | SecDeniedIps => denied_ips_section self top_n
  | SecSourceIps => source_ips_section self top_n
  | SecDestIps => dest_ips_section self top_n
  | SecPorts => ports_section self top_n
  | SecTimeline => timeline_section self
  | SecConnectionErrors => connection_errors_section self top_n
  | SecDnsFailures => dns_failures_section self top_n
  | SecHighLatency => high_latency_section self top_n
  | SecPacketLoss => packet_loss_section self top_n
  | SecDhcpEvents => dhcp_events_section self top_n
  | SecDeniedEntries => denied_entries_section self top_n
  end.

(** * Properties *)

(** ** The matcher against its declarative reading *)

Module ReFacts.

Lemma prev_after_app (t1 t2 : str) (p : option ascii) :
  prev_after (t1 ++ t2) p = prev_after t2 (prev_after t1 p).
Proof. unfold prev_after. apply fold_left_app. Qed.

Lemma within_step (hi : option nat) (n : nat) :
  can_more hi = true -> within (dec hi) n -> within hi (S n).
Proof.
  destruct hi as [[|h]|]; simpl; intros Hc Hw; try discriminate; auto.
  lia.
Qed.

Lemma within_can_more (hi : option nat) (n : nat) :
  within hi (S n) -> can_more hi = true /\ within (dec hi) n.
Proof.
  destruct hi as [[|h]|]; simpl; intros Hw; split; auto; lia.
Qed.

Section Repetition.
Variable A : Type.
Variable f : ascii -> bool.

Lemma rep_greedy_sound (s : str) :
  forall lo hi p (k : option ascii -> str -> option A) x,
    rep_greedy f lo hi p s k = Some x ->
    exists t s', s = t ++ s' /\ forallb f t = true /\ lo <= length t
                 /\ within hi (length t) /\ k (prev_after t p) s' = Some x.
Proof.
  induction s as [|a s IH]; intros lo hi p k x H; simpl in H.
  - destruct (Nat.eqb_spec lo 0) as [->|]; [|discriminate].
    exists [], []. simpl. repeat split; auto.
    destruct hi; simpl; lia.
  - assert (Hstop : (if lo =? 0 then k p (a :: s) else None) = Some x ->
              exists t s', a :: s = t ++ s' /\ forallb f t = true
                /\ lo <= length t /\ within hi (length t)
                /\ k (prev_after t p) s' = Some x).
    { destruct (Nat.eqb_spec lo 0) as [->|]; [|discriminate].
      intros Hk. exists [], (a :: s). simpl. repeat split; auto.
      destruct hi; simpl; lia. }
    destruct (f a) eqn:Hf; simpl in H; [|auto].
    destruct (can_more hi) eqn:Hc; [|auto].
    destruct (rep_greedy f (pred lo) (dec hi) (Some a) s k) eqn:Hrec; [|auto].
    inversion H; subst a0. clear H.
    destruct (IH _ _ _ _ _ Hrec) as (t & s' & -> & Ht & Hlo & Hhi & Hk).
    exists (a :: t), s'. simpl. rewrite Hf, Ht. repeat split; auto.
    + lia.
    + apply within_step; auto.
Qed.

Lemma rep_greedy_complete (t : str) :
  forall s' lo hi p (k : option ascii -> str -> option A),
    forallb f t = true -> lo <= length t -> within hi (length t) ->
    k (prev_after t p) s' <> None ->
    rep_greedy f lo hi p (t ++ s') k <> None.
Proof.
  induction t as [|a t IH]; intros s' lo hi p k Ht Hlo Hhi Hk.
  - simpl in *. assert (lo = 0) by lia. subst lo.
    destruct s' as [|b s']; simpl; auto.
    destruct (f b && can_more hi); auto.
    destruct (rep_greedy f 0 (dec hi) (Some b) s' k); auto. discriminate.
  - simpl in Ht. apply andb_true_iff in Ht as [Hf Ht].
    simpl in Hlo, Hhi. apply within_can_more in Hhi as [Hc Hhi].
    simpl. rewrite Hf, Hc. simpl.
    specialize (IH s' (pred lo) (dec hi) (Some a) k Ht).
    destruct (rep_greedy f (pred lo) (dec hi) (Some a) (t ++ s') k).
    + discriminate.
    + exfalso. apply IH; auto. lia.
Qed.

Lemma rep_lazy_sound (s : str) :
  forall lo hi p (k : option ascii -> str -> option A) x,
    rep_lazy f lo hi p s k = Some x ->
    exists t s', s = t ++ s' /\ forallb f t = true /\ lo <= length t
                 /\ within hi (length t) /\ k (prev_after t p) s' = Some x.
Proof.
  induction s as [|a s IH]; intros lo hi p k x H; simpl in H.
  - destruct (Nat.eqb_spec lo 0) as [->|]; [|discriminate].
    destruct (k p []) eqn:Hk; [|discriminate].
    exists [], []. simpl. repeat split; auto.
    + destruct hi; simpl; lia.
    + congruence.
  - assert (Hmore : (if f a && can_more hi
                     then rep_lazy f (pred lo) (dec hi) (Some a) s k
                     else None) = Some x ->
              exists t s', a :: s = t ++ s' /\ forallb f t = true
                /\ lo <= length t /\ within hi (length t)
                /\ k (prev_after t p) s' = Some x).
    { destruct (f a) eqn:Hf; simpl; [|discriminate].
      destruct (can_more hi) eqn:Hc; [|discriminate].
      intros Hrec.
      destruct (IH _ _ _ _ _ Hrec) as (t & s' & -> & Ht & Hlo & Hhi & Hk).
      exists (a :: t), s'. simpl. rewrite Hf, Ht. repeat split; auto.
      - lia.
      - apply within_step; auto. }
    destruct (Nat.eqb_spec lo 0) as [->|]; [|auto].
    destruct (k p (a :: s)) eqn:Hk; [|auto].
    exists [], (a :: s). simpl. repeat split; auto.
    + destruct hi; simpl; lia.
    + congruence.
Qed.

Lemma rep_lazy_complete (t : str) :
  forall s' lo hi p (k : option ascii -> str -> option A),
    forallb f t = true -> lo <= length t -> within hi (length t) ->
    k (prev_after t p) s' <> None ->
    rep_lazy f lo hi p (t ++ s') k <> None.
Proof.
  induction t as [|a t IH]; intros s' lo hi p k Ht Hlo Hhi Hk.
  - simpl in *. assert (lo = 0) by lia. subst lo.
    destruct s' as [|b s']; simpl.
    + destruct (k p []); [discriminate | auto].
    + destruct (k p (b :: s')); [discriminate | exfalso; auto].
  - simpl in Ht. apply andb_true_iff in Ht as [Hf Ht].
    simpl in Hlo, Hhi. apply within_can_more in Hhi as [Hc Hhi].
    assert (Hrec : rep_lazy f (pred lo) (dec hi) (Some a) (t ++ s') k <> None)
      by (apply IH; auto; lia).
    simpl. rewrite Hf, Hc. simpl.
    destruct (lo =? 0); auto.
    destruct (k p (a :: t ++ s')); [discriminate | auto].
Qed.

End Repetition.

Lemma sem_suffix (r : regex) :
  forall p s c p' s' c',
    sem r p s c p' s' c' -> exists t, s = t ++ s' /\ p' = prev_after t p.
Proof.
  induction r as [|f| | |r1 IHr1 r2 IHr2|r1 IHr1 r2 IHr2|f lo hi g|name r IHr];
    simpl; intros p s c p' s' c' H.
  - destruct H as (-> & -> & _). now exists [].
  - destruct H as (a & -> & _ & -> & _). now exists [a].
  - destruct H as (_ & -> & -> & _). now exists [].
  - destruct H as (_ & -> & -> & _). now exists [].
  - destruct H as (p1 & s1 & c1 & H1 & H2).
    apply IHr1 in H1 as (t1 & -> & ->). apply IHr2 in H2 as (t2 & -> & ->).
    exists (t1 ++ t2). now rewrite app_assoc, prev_after_app.
  - destruct H as [H|H]; eauto.
  - destruct H as (t & -> & _ & _ & _ & -> & _). now exists t.
  - destruct H as (c1 & H & _). eauto.
Qed.

Lemma rmatch_sound (A : Type) (r : regex) :
  forall p s c (k : option ascii -> str -> caps -> option A) x,
    rmatch r p s c k = Some x ->
    exists p' s' c', sem r p s c p' s' c' /\ k p' s' c' = Some x.
Proof.
  induction r as [|f| | |r1 IHr1 r2 IHr2|r1 IHr1 r2 IHr2|f lo hi g|name r IHr];
    simpl; intros p s c k x H.
  - exists p, s, c. auto.
  - destruct s as [|a s]; [discriminate|].
    destruct (f a) eqn:Hb; [|discriminate].
    exists (Some a), s, c. split; auto. exists a. repeat split; auto.
  - destruct p; [discriminate|]. exists None, s, c. auto.
  - destruct (xorb _ _) eqn:Hx; [|discriminate]. exists p, s, c. auto.
  - apply IHr1 in H as (p1 & s1 & c1 & H1 & H).
    apply IHr2 in H as (p' & s' & c' & H2 & H).
    exists p', s', c'. split; auto. exists p1, s1, c1. auto.
  - destruct (rmatch r1 p s c k) eqn:H1.
    + inversion H; subst a.
      apply IHr1 in H1 as (p' & s' & c' & H1 & Hk). exists p', s', c'. auto.
    + apply IHr2 in H as (p' & s' & c' & H2 & Hk). exists p', s', c'. auto.
  - assert (Hrep : exists t s', s = t ++ s' /\ forallb f t = true
              /\ lo <= length t /\ within hi (length t)
              /\ k (prev_after t p) s' c = Some x).
    { destruct g.
      - apply rep_greedy_sound in H. exact H.
      - apply rep_lazy_sound in H. exact H. }
    destruct Hrep as (t & s' & -> & Ht & Hlo & Hhi & Hk).
    exists (prev_after t p), s', c. split; auto. exists t. repeat split; auto.
  - apply IHr in H as (p' & s' & c' & H1 & Hk).
    eexists p', s', _. split; [|exact Hk]. exists c'. auto.
Qed.

Lemma rmatch_complete (A : Type) (r : regex) :
  forall p s c p' s' c' (k : option ascii -> str -> caps -> option A),
    sem r p s c p' s' c' -> k p' s' c' <> None ->
    rmatch r p s c k <> None.
Proof.
  induction r as [|f| | |r1 IHr1 r2 IHr2|r1 IHr1 r2 IHr2|f lo hi g|name r IHr];
    simpl; intros p s c p' s' c' k H Hk.
  - destruct H as (-> & -> & ->). auto.
  - destruct H as (a & -> & Hb & -> & ->). now rewrite Hb.
  - destruct H as (-> & -> & -> & ->). auto.
  - destruct H as (Hx & -> & -> & ->). now rewrite Hx.
  - destruct H as (p1 & s1 & c1 & H1 & H2).
    eapply IHr1; [exact H1|]. eapply IHr2; eauto.
  - destruct (rmatch r1 p s c k) eqn:E; [discriminate|].
    destruct H as [H|H].
    + exfalso. eapply IHr1; eauto.
    + eapply IHr2; eauto.
  - destruct H as (t & -> & Ht & Hlo & Hhi & -> & ->).
    destruct g.
    + apply rep_greedy_complete; auto.
    + apply rep_lazy_complete; auto.
  - destruct H as (c1 & H & ->). eapply IHr; eauto.
Qed.

Lemma firstn_app_exact (t s' : str) :
  firstn (length (t ++ s') - length s') (t ++ s') = t.
Proof.
  rewrite length_app, Nat.add_sub.
  rewrite firstn_app, Nat.sub_diag, firstn_all. simpl. apply app_nil_r.
Qed.

(** A match at one position: the text read and the groups. *)
Lemma match_at_sound (r : regex) (p : option ascii) (s : str) (m : mobj) :
  match_at r p s = Some m ->
  exists p' s', s = m_text m ++ s' /\ sem r p s [] p' s' (m_groups m).
Proof.
  unfold match_at. intros H.
  apply rmatch_sound in H as (p' & s' & c' & Hsem & Hk).
  inversion Hk; subst m; simpl. clear Hk.
  destruct (sem_suffix _ _ _ _ _ _ _ Hsem) as (t & -> & _).
  rewrite firstn_app_exact. eauto.
Qed.

Lemma match_at_complete (r : regex) (p : option ascii) (s : str) p' s' c' :
  sem r p s [] p' s' c' -> match_at r p s <> None.
Proof.
  unfold match_at. intros H. eapply rmatch_complete; [exact H|]. discriminate.
Qed.

Lemma search_from_sound (r : regex) (s : str) :
  forall p m,
    search_from r p s = Some m ->
    exists pre post p',
      s = pre ++ m_text m ++ post
      /\ sem r (prev_after pre p) (m_text m ++ post) [] p' post (m_groups m).
Proof.
  induction s as [|a s IH]; intros p m H; simpl in H.
  - destruct (match_at r p []) eqn:E; [|discriminate].
    inversion H; subst m0.
    apply match_at_sound in E as (p' & s' & Hs & Hsem).
    exists [], s', p'. simpl. rewrite <- Hs. auto.
  - destruct (match_at r p (a :: s)) eqn:E.
    + inversion H; subst m0.
      apply match_at_sound in E as (p' & s' & Hs & Hsem).
      exists [], s', p'. simpl. rewrite <- Hs. auto.
    + apply IH in H as (pre & post & p' & -> & Hsem).
      exists (a :: pre), post, p'. simpl. auto.
Qed.

Lemma search_from_complete (r : regex) (pre : str) :
  forall p rest p' s' c',
    sem r (prev_after pre p) rest [] p' s' c' ->
    search_from r p (pre ++ rest) <> None.
Proof.
  induction pre as [|a pre IH]; intros p rest p' s' c' H.
  - simpl in H. apply match_at_complete in H.
    destruct rest; simpl; destruct (match_at r p _); auto; discriminate.
  - simpl. destruct (match_at r p (a :: pre ++ rest)); [discriminate|].
    eapply IH. exact H.
Qed.

(** [search] finds a match exactly when the pattern occurs in the line. *)
Lemma matches_pat_iff (name : pat_name) (line : str) :
  matches_pat name line = true <->
  exists pre mid post c, occurs (PATTERNS name) line pre mid post c.
Proof.
  unfold matches_pat, search, occurs. split.
  - destruct (search_from _ None line) eqn:E; [|discriminate]. intros _.
    apply search_from_sound in E as (pre & post & p' & Hs & Hsem).
    exists pre, (m_text m), post, (m_groups m). eauto.
  - intros (pre & mid & post & c & -> & p' & Hsem).
    apply search_from_complete with (p := None) in Hsem.
    destruct (search_from _ None _); congruence.
Qed.

End ReFacts.
Import ReFacts.

(** ** Tables *)

Lemma str_eqb_eq (a b : str) : str_eqb a b = true <-> a = b.
Proof.
  unfold str_eqb. destruct (list_eq_dec ascii_dec a b); split; congruence.
Qed.

Lemma str_eqb_refl (a : str) : str_eqb a a = true.
Proof. now apply str_eqb_eq. Qed.

Lemma get_incr (key : str) (c : Counter) (k : str) :
  get (incr key c) k = get c k + (if str_eqb key k then 1 else 0).
Proof.
  induction c as [|[k0 v] c IH]; simpl.
  - destruct (str_eqb key k); reflexivity.
  - destruct (str_eqb k0 key) eqn:E; simpl.
    + apply str_eqb_eq in E. subst k0.
      destruct (str_eqb key k); lia.
    + destruct (str_eqb k0 k) eqn:E2; auto.
      destruct (str_eqb key k) eqn:E3; auto.
      apply str_eqb_eq in E2, E3. subst. rewrite str_eqb_refl in E.
      discriminate.
Qed.

Lemma get_fold_incr (keys : list str) :
  forall (c : Counter) (k : str),
    get (fold_left (fun c key => incr key c) keys c) k
    = get c k + count_occ str_eq_dec keys k.
Proof.
  induction keys as [|key keys IH]; intros c k; simpl.
  - lia.
  - rewrite IH, get_incr.
    destruct (str_eq_dec key k) as [->|Hne].
    + rewrite str_eqb_refl. lia.
    + destruct (str_eqb key k) eqn:E; [apply str_eqb_eq in E; contradiction|].
      lia.
Qed.

Lemma incr_not_nil (key : str) (c : Counter) : incr key c <> [].
Proof. destruct c as [|[k v] c]; simpl; [|destruct (str_eqb k key)]; discriminate. Qed.

(** ** The firewall check *)

(** The loop over the addresses of a denied line only touches the
    denied-IP table. *)
Lemma denied_loop_spec (ips : list str) :
  forall self,
    let self' :=
      fold_left (fun self ip => set_denied_ips self (incr ip (denied_ips self)))
        ips self in
    denied_ips self'
    = fold_left (fun c key => incr key c) ips (denied_ips self)
    /\ denied_entries self' = denied_entries self
    /\ allowed_entries self' = allowed_entries self
    /\ connection_errors self' = connection_errors self
    /\ dns_failures self' = dns_failures self
    /\ dns_queries self' = dns_queries self
    /\ high_latency self' = high_latency self
    /\ packet_loss_entries self' = packet_loss_entries self
    /\ dhcp_events self' = dhcp_events self.
Proof.
  induction ips as [|ip ips IH]; intros self; simpl.
  - repeat split; reflexivity.
  - specialize (IH (set_denied_ips self (incr ip (denied_ips self)))).
    simpl in IH. exact IH.
Qed.

Lemma check_firewall_deny (line : str) (line_num : nat) (self : NetworkLogParser) :
  matches_pat firewall_deny line = true ->
  let self' := _check_firewall line line_num self in
  denied_entries self' = denied_entries self ++ [(line_num, strip line)]
  /\ allowed_entries self' = allowed_entries self
  /\ forall ip,
       get (denied_ips self') ip
       = get (denied_ips self) ip
         + count_occ str_eq_dec (findall ip_address "ip" line) ip.
Proof.
  intros Hd. unfold _check_firewall. rewrite Hd. cbv zeta.
  destruct (denied_loop_spec (findall ip_address "ip" line)
              (set_denied_entries self
                 (denied_entries self ++ [(line_num, strip line)])))
    as (Hips & Hden & Hall & _).
  cbv zeta in Hips, Hden, Hall.
  rewrite Hden, Hall, Hips. simpl. repeat split; auto.
  intros ip. apply get_fold_incr.
Qed.

(** C2: a line on which both a deny keyword and an allow keyword match is
    recorded as a deny entry, is not recorded as an allow entry, and every
    IPv4 literal found on it adds one to its count in the denied-IP
    table. *)
Theorem deny_wins_over_allow (line : str) (line_num : nat)
    (self : NetworkLogParser) :
  matches_pat firewall_deny line = true ->
  matches_pat firewall_allow line = true ->
  let self' := _check_firewall line line_num self in
  denied_entries self' = denied_entries self ++ [(line_num, strip line)]
  /\ allowed_entries self' = allowed_entries self
  /\ forall ip,
       get (denied_ips self') ip
       = get (denied_ips self) ip
         + count_occ str_eq_dec (findall ip_address "ip" line) ip.
Proof.
  intros Hd _. now apply check_firewall_deny.
Qed.

(** An instance: a line with both keywords and three IPv4 literals, two of
    them equal. *)
Lemma deny_wins_over_allow_witness :
  let line : str := "DENY then ALLOW 10.0.0.5 -> 10.0.0.9 via 10.0.0.5" in
  let self' := _check_firewall line 7 (init "fw.log") in
  matches_pat firewall_deny line = true
  /\ matches_pat firewall_allow line = true
  /\ denied_entries self' = [(7, line)]
  /\ allowed_entries self' = []
  /\ get (denied_ips self') "10.0.0.5" = 2
  /\ get (denied_ips self') "10.0.0.9" = 1.
Proof.
  cbv zeta.
  destruct (@deny_wins_over_allow
              "DENY then ALLOW 10.0.0.5 -> 10.0.0.9 via 10.0.0.5" 7
              (init "fw.log") eq_refl eq_refl) as (H1 & H2 & H3).
  split; [reflexivity|]. split; [reflexivity|].
  split; [exact H1|]. split; [exact H2|].
  split; [exact (H3 "10.0.0.5") | exact (H3 "10.0.0.9")].
Defined.

(** ** Numeric payloads *)

Lemma sem_no_group (r : regex) :
  no_group r = true ->
  forall p s c p' s' c', sem r p s c p' s' c' -> c' = c.
Proof.
  induction r as [|f| | |r1 IHr1 r2 IHr2|r1 IHr1 r2 IHr2|f lo hi g|name r IHr];
    simpl; intros Hng p s c p' s' c' H.
  - tauto.
  - destruct H as (a & _ & _ & _ & ->). reflexivity.
  - tauto.
  - tauto.
  - apply andb_true_iff in Hng as [H1 H2].
    destruct H as (p1 & s1 & c1 & Ha & Hb).
    apply IHr1 in Ha; auto. apply IHr2 in Hb; auto. congruence.
  - apply andb_true_iff in Hng as [H1 H2]. destruct H as [H|H]; eauto.
  - destruct H as (t & _ & _ & _ & _ & _ & ->). reflexivity.
  - discriminate.
Qed.

Lemma sem_grp (name : string) (r : regex) p s c p' s' c' :
  sem (Grp name r) p s c p' s' c' ->
  exists t c1, s = t ++ s' /\ sem r p s c p' s' c1 /\ c' = (name, t) :: c1.
Proof.
  simpl. intros (c1 & H & ->).
  destruct (sem_suffix _ _ _ _ _ _ _ H) as (t & -> & _).
  exists t, c1. rewrite firstn_app_exact. auto.
Qed.

Lemma eqc_eq (a b : ascii) : eqc a b = true -> a = b.
Proof. unfold eqc. apply Ascii.eqb_eq. Qed.

Lemma decimal_body_text p t s' c p' c' :
  sem decimal_body p (t ++ s') c p' s' c' -> decimal_literal t.
Proof.
  unfold decimal_body, plus, optc, star. cbn [seq sem].
  intros (p1 & s1 & c1 & (t1 & E1 & D1 & L1 & _) & p2 & s2 & c2
          & (t2 & E2 & D2 & _ & L2 & _) & (t3 & E3 & D3 & _)).
  subst s2 s1. rewrite !app_assoc in E1. apply app_inv_tail in E1. subst t.
  exists t1, t3. split; [destruct t1; simpl in L1; [lia|discriminate]|].
  split; auto. split; auto.
  destruct t2 as [|a [|b t2]]; simpl in L2; try lia.
  - left. now rewrite app_nil_r.
  - right. cbn [forallb] in D2. rewrite andb_true_r in D2. apply eqc_eq in D2.
    subst a. now rewrite <- app_assoc.
Qed.

Lemma span_digits_all (t : str) :
  forallb is_digit t = true -> span_digits t = (t, []).
Proof.
  induction t as [|a t IH]; simpl; auto.
  intros H. apply andb_true_iff in H as [Ha Ht]. now rewrite Ha, IH.
Qed.

Lemma span_digits_stop (t : str) (a : ascii) (r : str) :
  forallb is_digit t = true -> is_digit a = false ->
  span_digits (t ++ a :: r) = (t, a :: r).
Proof.
  intros Ht Ha. induction t as [|b t IH]; simpl.
  - now rewrite Ha.
  - simpl in Ht. apply andb_true_iff in Ht as [Hb Ht]. now rewrite Hb, IH.
Qed.

(** [float] accepts every plain decimal literal. *)
Lemma py_float_decimal (s : str) :
  decimal_literal s -> exists x, py_float s = Some x.
Proof.
  intros (ip & fp & Hne & Hip & Hfp & [->| ->]); unfold py_float, parse_decimal.
  - rewrite span_digits_all by (rewrite forallb_app, Hip, Hfp; reflexivity).
    destruct (ip ++ fp) eqn:E.
    + apply app_eq_nil in E as [-> _]. contradiction.
    + eauto.
  - change (ip ++ "." ++ fp) with (ip ++ "."%char :: fp).
    rewrite span_digits_stop by (auto; reflexivity).
    destruct ip as [|a ip]; [contradiction|].
    change (eqc "." ".") with true. cbv iota.
    rewrite span_digits_all by auto. eauto.
Qed.

Lemma group_single (name : string) (t : str) :
  group {| m_text := []; m_groups := [(name, t)] |} name = t.
Proof. unfold group. simpl. now rewrite String.eqb_refl. Qed.

(** The group [ms] of a latency match is a plain decimal literal. *)
Lemma latency_payload (line : str) (m : mobj) :
  search (PATTERNS latency) line = Some m -> decimal_literal (group m "ms").
Proof.
  unfold search. intros H.
  apply search_from_sound in H as (pre & post & p' & _ & Hsem).
  change (PATTERNS latency) with
    (Seq (alts [ilit "time"; ilit "latency"; ilit "rtt"; ilit "delay"])
       (Seq (plus (ci (one_of "=: ")))
          (Seq (Grp "ms" decimal_body) (Seq ws0 (ilit "ms"))))) in Hsem.
  destruct Hsem as (p1 & s1 & c1 & H1 & p2 & s2 & c2 & H2 & p3 & s3 & c3
                    & H3 & H4).
  apply sem_no_group in H1; [|reflexivity].
  apply sem_no_group in H2; [|reflexivity].
  apply sem_no_group in H4; [|reflexivity].
  apply sem_grp in H3 as (t & c0 & -> & H3 & ->).
  pose proof (sem_no_group decimal_body eq_refl _ _ _ _ _ _ H3) as Hc0.
  subst. unfold group. rewrite H4. simpl.
  eapply decimal_body_text; eauto.
Qed.

(** The group [loss] of a packet-loss match is a plain decimal literal. *)
Lemma loss_payload (line : str) (m : mobj) :
  search (PATTERNS packet_loss) line = Some m ->
  decimal_literal (group m "loss").
Proof.
  unfold search. intros H.
  apply search_from_sound in H as (pre & post & p' & _ & Hsem).
  change (PATTERNS packet_loss) with
    (Seq (Grp "loss" decimal_body)
       (seq [optc (eqc "%"); ws0; opt (Seq (ilit "packet") ws1);
             ilit "loss"])) in Hsem.
  destruct Hsem as (p1 & s1 & c1 & H1 & H2).
  apply sem_no_group in H2; [|reflexivity].
  apply sem_grp in H1 as (t & c0 & -> & H1 & ->).
  pose proof (sem_no_group decimal_body eq_refl _ _ _ _ _ _ H1) as Hc0.
  subst. unfold group. rewrite H2. simpl.
  eapply decimal_body_text; eauto.
Qed.

Lemma gt_int_spec (x : pyfloat) (n : Z) : gt_int x n = true <-> float_gt x n.
Proof.
  destruct x as [q|]; simpl; [|tauto].
  rewrite Z.ltb_lt. unfold Qlt. simpl. rewrite Z.mul_1_r. tauto.
Qed.

(** ** The latency check *)

Lemma check_latency_spec (line : str) (line_num : nat)
    (self : NetworkLogParser) (m : mobj) :
  search (PATTERNS latency) line = Some m ->
  exists ms self',
    py_float (group m "ms") = Some ms
    /\ _check_latency line line_num self = Ok self'
    /\ (float_gt ms 100 ->
        high_latency self'
        = high_latency self ++ [(line_num, ms, strip line)])
    /\ (~ float_gt ms 100 -> self' = self).
Proof.
  intros Hm.
  destruct (py_float_decimal (latency_payload _ Hm)) as (ms & Hms).
  unfold _check_latency. rewrite Hm, Hms.
  destruct (gt_int ms 100) eqn:Hgt.
  - eexists ms, _. split; [reflexivity|]. split; [reflexivity|].
    split; [reflexivity|]. intros Hn. apply gt_int_spec in Hgt. contradiction.
  - exists ms, self. split; [reflexivity|]. split; [reflexivity|].
    split; [|reflexivity]. intros Hn. apply gt_int_spec in Hn. congruence.
Qed.

(** C5: when the latency recognizer matches, the payload is parsed and the
    line is recorded as a high-latency entry, with the parsed value, exactly
    when that value is strictly greater than 100; a value of exactly 100.0
    is not recorded.  The line "rtt=250.5 ms to host" gives one record with
    value 250.5, the line "rtt=80 ms to host" gives none. *)
Theorem high_latency_iff_above_100 :
  (forall (line : str) (line_num : nat) (self : NetworkLogParser) (m : mobj),
     search (PATTERNS latency) line = Some m ->
     exists ms self',
       py_float (group m "ms") = Some ms
       /\ _check_latency line line_num self = Ok self'
       /\ (float_gt ms 100 ->
           high_latency self'
           = high_latency self ++ [(line_num, ms, strip line)])
       /\ (~ float_gt ms 100 -> high_latency self' = high_latency self))
  /\ (exists self',
        _check_latency "rtt=250.5 ms to host" 1 (init "net.log") = Ok self'
        /\ high_latency self'
           = [(1, Finite (501 # 2), "rtt=250.5 ms to host" : str)])
  /\ (exists self',
        _check_latency "rtt=80 ms to host" 1 (init "net.log") = Ok self'
        /\ high_latency self' = [])
  /\ (exists self',
        _check_latency "rtt=100.0 ms to host" 1 (init "net.log") = Ok self'
        /\ high_latency self' = []).
Proof.
  split; [|repeat split; eexists; split; reflexivity].
  intros line line_num self m Hm.
  destruct (check_latency_spec line line_num self Hm)
    as (ms & self' & H1 & H2 & H3 & H4).
  exists ms, self'. repeat split; auto. intros Hn. now rewrite (H4 Hn).
Qed.

(** An instance: a value just above the threshold is recorded. *)
Lemma high_latency_iff_above_100_witness :
  let line : str := "latency: 100.5ms from gw" in
  exists m ms self',
    search (PATTERNS latency) line = Some m
    /\ py_float (group m "ms") = Some ms
    /\ float_gt ms 100
    /\ _check_latency line 3 (init "net.log") = Ok self'
    /\ high_latency self' = [(3, ms, line)].
Proof.
  cbv zeta.
  destruct (proj1 high_latency_iff_above_100 "latency: 100.5ms from gw" 3
              (init "net.log")
              {| m_text := "latency: 100.5ms"; m_groups := [("ms", "100.5" : str)] |}
              eq_refl)
    as (ms & self' & H1 & H2 & H3 & _).
  exists {| m_text := "latency: 100.5ms"; m_groups := [("ms", "100.5" : str)] |},
    ms, self'.
  assert (Hgt : float_gt ms 100).
  { change (py_float (group {| m_text := "latency: 100.5ms";
                               m_groups := [("ms", "100.5" : str)] |} "ms"))
      with (Some (Finite (201 # 2))) in H1.
    injection H1 as <-. reflexivity. }
  split; [reflexivity|]. split; [exact H1|]. split; [exact Hgt|].
  split; [exact H2|]. exact (H3 Hgt).
Defined.

(** ** The pass never stops on a number *)

Lemma check_latency_ok (line : str) (line_num : nat) (self : NetworkLogParser) :
  exists self', _check_latency line line_num self = Ok self'.
Proof.
  destruct (search (PATTERNS latency) line) as [m|] eqn:Hm.
  - destruct (check_latency_spec line line_num self Hm) as (_ & s & _ & H & _).
    eauto.
  - unfold _check_latency. rewrite Hm. eauto.
Qed.

Lemma check_packet_loss_ok (line : str) (line_num : nat)
    (self : NetworkLogParser) :
  exists self', _check_packet_loss line line_num self = Ok self'.
Proof.
  unfold _check_packet_loss.
  destruct (search (PATTERNS packet_loss) line) as [m|] eqn:Hm; [|eauto].
  destruct (py_float_decimal (loss_payload _ Hm)) as (x & ->).
  destruct (gt_int x 0); eauto.
Qed.

Lemma parse_line_steps (line_num : nat) (line : str) (self : NetworkLogParser) :
  exists s1 s2,
    _check_latency line line_num (before_numeric line_num line self) = Ok s1
    /\ _check_packet_loss line line_num s1 = Ok s2
    /\ parse_line line_num line self
       = Ok (_extract_timestamp_bucket line (_check_dhcp line line_num s2)).
Proof.
  destruct (check_latency_ok line line_num (before_numeric line_num line self))
    as (s1 & H1).
  destruct (check_packet_loss_ok line line_num s1) as (s2 & H2).
  exists s1, s2. split; auto. split; auto.
  unfold parse_line. fold (before_numeric line_num line self).
  rewrite H1. simpl. rewrite H2. reflexivity.
Qed.

Lemma parse_loop_ok (ls : list str) :
  forall line_num self, exists self', parse_loop line_num ls self = Ok self'.
Proof.
  induction ls as [|line ls IH]; intros line_num self; simpl; eauto.
  destruct (parse_line_steps line_num line self) as (s1 & s2 & _ & _ & ->).
  simpl. apply IH.
Qed.

(** C6: the payload of a latency or packet-loss match always parses as a
    number, so no line stops the pass: on every line both numeric checks
    return, the remaining checks of the line are run on their result, and
    the pass over any file runs to its end. *)
Theorem numeric_checks_never_abort :
  (forall (line_num : nat) (line : str) (self : NetworkLogParser),
     exists s1 s2,
       _check_latency line line_num (before_numeric line_num line self) = Ok s1
       /\ _check_packet_loss line line_num s1 = Ok s2
       /\ parse_line line_num line self
          = Ok (_extract_timestamp_bucket line (_check_dhcp line line_num s2)))
  /\ (forall self : NetworkLogParser, exists self', parse self = Ok self')
  /\ (forall (path text : str) (top_n : Z) (now : str),
        exists out, main path (Some text) top_n now = Ok out).
Proof.
  split; [exact parse_line_steps|]. split.
  - intros self. apply parse_loop_ok.
  - intros path text top_n now. unfold main, analyse, load. simpl.
    destruct (parse_loop_ok (readlines text) 1
                (set_lines (init path) (readlines text) (length (readlines text))))
      as (self' & H).
    unfold parse. simpl. rewrite H. simpl. eauto.
Qed.

(** ** The timeline *)

Lemma extract_timestamp_bucket_spec (line : str) (self : NetworkLogParser) :
  let self' := _extract_timestamp_bucket line self in
  match timestamp_bucket line with
  | Some hour =>
      forall bucket,
        get (error_timeline self') bucket
        = get (error_timeline self) bucket
          + (if is_error_line line && str_eqb hour bucket then 1 else 0)
  | None => error_timeline self' = error_timeline self
  end.
Proof.
  unfold _extract_timestamp_bucket, timestamp_bucket, is_error_line.
  cbn [timestamp_loop].
  destruct (search (PATTERNS timestamp_iso) line) as [m|].
  - destruct (matches_pat firewall_deny line || matches_pat connection_error line);
      cbn [andb error_timeline set_error_timeline]; intros bucket.
    + apply get_incr.
    + lia.
  - destruct (search (PATTERNS timestamp_syslog) line) as [m|]; [|reflexivity].
    destruct (matches_pat firewall_deny line || matches_pat connection_error line);
      cbn [andb error_timeline set_error_timeline]; intros bucket.
    + apply get_incr.
    + lia.
Qed.

(** C3: a line with a recognized timestamp (ISO first, else syslog) adds
    exactly one to the bucket of that timestamp when it matches
    firewall-deny or connection-error, once even when it matches both, and
    leaves every bucket as it was when it matches neither; a line without
    a recognized timestamp changes no bucket. *)
Theorem timeline_counts_error_lines_once (line : str) (self : NetworkLogParser) :
  let self' := _extract_timestamp_bucket line self in
  match timestamp_bucket line with
  | Some hour =>
      forall bucket,
        get (error_timeline self') bucket
        = get (error_timeline self) bucket
          + (if is_error_line line && str_eqb hour bucket then 1 else 0)
  | None => error_timeline self' = error_timeline self
  end.
Proof. exact (extract_timestamp_bucket_spec line self). Qed.

(** ** The address tables *)

Lemma extract_ips_loop (A : Type) (ips : list str) (l : list A) :
  forall self k,
    let self' := fold_left (fun self _ => extract_ips_body ips self) l self in
    get (source_ips self') k
    = get (source_ips self) k
      + (if (1 <=? length ips) && str_eqb (nth 0 ips []) k
         then length l else 0)
    /\ get (dest_ips self') k
       = get (dest_ips self) k
         + (if (2 <=? length ips) && str_eqb (nth 1 ips []) k
            then length l else 0).
Proof.
  induction l as [|x l IH]; intros self k; cbn [fold_left length].
  - cbv zeta. split; destruct (_ && _); lia.
  - destruct (IH (extract_ips_body ips self) k) as [H1 H2]. cbv zeta in *.
    rewrite H1, H2. unfold extract_ips_body.
    destruct (1 <=? length ips); destruct (2 <=? length ips);
      cbn [source_ips dest_ips set_source_ips set_dest_ips andb];
      rewrite ?get_incr;
      split; repeat match goal with |- context [str_eqb ?a ?b] =>
                      destruct (str_eqb a b) end; lia.
Qed.

(** What [_extract_ips] does to the two tables: on a line with [n] IPv4
    literals the first literal gains [n] in the source table and, when
    [n >= 2], the second gains [n] in the destination table. *)
Lemma extract_ips_counts (line : str) (self : NetworkLogParser) (k : str) :
  let ips := findall ip_address "ip" line in
  let self' := _extract_ips line self in
  get (source_ips self') k
  = get (source_ips self) k
    + (if (1 <=? length ips) && str_eqb (nth 0 ips []) k
       then length ips else 0)
  /\ get (dest_ips self') k
     = get (dest_ips self) k
       + (if (2 <=? length ips) && str_eqb (nth 1 ips []) k
          then length ips else 0).
Proof.
  intros ips.
  pose proof (extract_ips_loop ips (finditer (PATTERNS ip_address) line)
                self k) as H.
  assert (Hlen : length (finditer (PATTERNS ip_address) line) = length ips)
    by (unfold ips, findall; now rewrite length_map).
  rewrite Hlen in H. exact H.
Qed.

(** C1 (what the code does): on the one-line file of Scenario 1, whose
    line holds two IPv4 literals, the pass ends with the source-IP table
    {10.0.0.5: 2} and the destination-IP table {10.0.0.9: 2}: each table is
    incremented twice for the line, not once. *)
Theorem scenario1_counts_each_address_twice :
  findall ip_address "ip" scenario1 = ["10.0.0.5" : str; "10.0.0.9" : str]
  /\ exists self,
       analyse "fw.log" (Some scenario1) = Ok self
       /\ source_ips self = [("10.0.0.5" : str, 2)]
       /\ dest_ips self = [("10.0.0.9" : str, 2)].
Proof.
  split; [reflexivity|]. eexists. split; [vm_compute; reflexivity|].
  split; reflexivity.
Qed.

(** ** Line numbers *)

Lemma fold_left_preserves (A B : Type) (P : A -> Prop) (f : A -> B -> A)
    (l : list B) :
  (forall a b, P a -> P (f a b)) -> forall a, P a -> P (fold_left f l a).
Proof.
  intros Hf. induction l as [|b l IH]; intros a Ha; simpl; auto.
Qed.

Section LineNumbers.
Variable b : pass_bounds.

Ltac open_inv :=
  unfold pass_invariant, line_numbers_within in *;
  cbn [denied_entries allowed_entries
    connection_errors dns_failures dns_queries high_latency
    packet_loss_entries dhcp_events total_lines lines
    set_denied_entries set_allowed_entries set_connection_errors
    set_dns_failures set_dns_queries set_high_latency
    set_packet_loss_entries set_dhcp_events set_source_ips set_dest_ips
    set_denied_ips set_error_timeline set_ports_targeted] in *.

Ltac add_record :=
  open_inv; intuition (try (apply Forall_app; split; auto)).

Lemma extract_ips_inv line self :
  pass_invariant b self -> pass_invariant b (_extract_ips line self).
Proof.
  unfold _extract_ips. apply fold_left_preserves. intros a _ Ha.
  destruct (1 <=? _); destruct (2 <=? _); open_inv; exact Ha.
Qed.

Lemma extract_ports_inv line self :
  pass_invariant b self -> pass_invariant b (_extract_ports line self).
Proof.
  unfold _extract_ports. apply fold_left_preserves. intros a m Ha.
  open_inv; exact Ha.
Qed.

Lemma check_firewall_inv line n self :
  first_line b <= n <= last_line b -> pass_invariant b self ->
  pass_invariant b (_check_firewall line n self).
Proof.
  intros Hn H. unfold _check_firewall.
  destruct (matches_pat firewall_deny line).
  - apply fold_left_preserves.
    + intros a ip Ha. open_inv; exact Ha.
    + add_record.
  - destruct (matches_pat firewall_allow line); [add_record | exact H].
Qed.

Lemma check_dns_inv line n self :
  first_line b <= n <= last_line b -> pass_invariant b self ->
  pass_invariant b (_check_dns line n self).
Proof.
  intros Hn H. unfold _check_dns.
  destruct (matches_pat dns_failure line); [add_record|].
  destruct (matches_pat dns_query line); [add_record | exact H].
Qed.

Lemma check_connection_errors_inv line n self :
  first_line b <= n <= last_line b -> pass_invariant b self ->
  pass_invariant b (_check_connection_errors line n self).
Proof.
  intros Hn H. unfold _check_connection_errors.
  destruct (matches_pat connection_error line); [add_record | exact H].
Qed.

Lemma check_latency_inv line n self self' :
  first_line b <= n <= last_line b -> pass_invariant b self ->
  _check_latency line n self = Ok self' -> pass_invariant b self'.
Proof.
  intros Hn H. unfold _check_latency.
  destruct (search (PATTERNS latency) line); [|congruence].
  destruct (py_float _); [|discriminate].
  destruct (gt_int _ _); intros E; inversion E; subst; [add_record | exact H].
Qed.

Lemma check_packet_loss_inv line n self self' :
  first_line b <= n <= last_line b -> pass_invariant b self ->
  _check_packet_loss line n self = Ok self' -> pass_invariant b self'.
Proof.
  intros Hn H. unfold _check_packet_loss.
  destruct (search (PATTERNS packet_loss) line); [|congruence].
  destruct (py_float _); [|discriminate].
  destruct (gt_int _ _); intros E; inversion E; subst; [add_record | exact H].
Qed.

Lemma check_dhcp_inv line n self :
  first_line b <= n <= last_line b -> pass_invariant b self ->
  pass_invariant b (_check_dhcp line n self).
Proof.
  intros Hn H. unfold _check_dhcp.
  destruct (matches_pat dhcp_event line); [add_record | exact H].
Qed.

Lemma extract_timestamp_bucket_inv line self :
  pass_invariant b self ->
  pass_invariant b (_extract_timestamp_bucket line self).
Proof.
  intros H. unfold _extract_timestamp_bucket.
  generalize [timestamp_iso; timestamp_syslog]. intros names.
  induction names as [|pat names IH]; cbn [timestamp_loop]; auto.
  destruct (search (PATTERNS pat) line); auto.
  destruct (_ || _); [open_inv|]; exact H.
Qed.

Lemma parse_line_inv line n self self' :
  first_line b <= n <= last_line b -> pass_invariant b self ->
  parse_line n line self = Ok self' -> pass_invariant b self'.
Proof.
  intros Hn H Hp.
  destruct (parse_line_steps n line self) as (s1 & s2 & H1 & H2 & H3).
  rewrite H3 in Hp. inversion Hp; subst self'.
  apply extract_timestamp_bucket_inv, check_dhcp_inv; auto.
  eapply check_packet_loss_inv; [exact Hn| |exact H2].
  eapply check_latency_inv; [exact Hn| |exact H1].
  unfold before_numeric.
  apply check_connection_errors_inv, check_dns_inv, check_firewall_inv,
    extract_ports_inv, extract_ips_inv; auto.
Qed.

Lemma parse_loop_inv (ls : list str) :
  forall n self self',
    first_line b <= n -> n + length ls <= S (last_line b) ->
    pass_invariant b self ->
    parse_loop n ls self = Ok self' -> pass_invariant b self'.
Proof.
  induction ls as [|line ls IH]; intros n self self' Hlo Hhi H Hp;
    cbn [parse_loop length] in *.
  - inversion Hp; subst; exact H.
  - destruct (parse_line n line self) as [s| |] eqn:E; try discriminate.
    cbn [bind] in Hp.
    apply (IH (S n) s self'); auto; try lia.
    eapply parse_line_inv; [|exact H|exact E]. lia.
Qed.

Lemma parse_loop_line_numbers (ls : list str) n self self' :
  first_line b <= n -> n + length ls <= S (last_line b) ->
  line_numbers_within (first_line b) (last_line b) self ->
  total_lines self = line_count b -> lines self = file_lines b ->
  parse_loop n ls self = Ok self' ->
  line_numbers_within (first_line b) (last_line b) self'
  /\ total_lines self' = line_count b /\ lines self' = file_lines b.
Proof.
  intros Hlo Hhi H1 H2 H3 Hp.
  apply (@parse_loop_inv ls n self self'); auto. split; auto.
Qed.

End LineNumbers.

(** [readlines] yields one line per line end, and one more for a last
    line without a line end. *)
Lemma readlines_aux_length (text : str) :
  forall cur after_cr,
    (after_cr = true -> cur = []) ->
    length (readlines_aux cur after_cr text)
    = count_line_ends after_cr text
      + (if match text with
            | [] => negb (length cur =? 0)
            | _ :: _ => ends_unterminated text
            end then 1 else 0).
Proof.
  assert (Hend : forall a b t, ends_unterminated (a :: b :: t)
                              = ends_unterminated (b :: t)).
  { intros a b t. unfold ends_unterminated. cbn [rev].
    destruct (rev t ++ [b]) eqn:E; [destruct (rev t); discriminate|].
    reflexivity. }
  induction text as [|a text IH]; intros cur after_cr Hcr.
  - simpl. destruct cur; reflexivity.
  - cbn [readlines_aux count_line_ends].
    destruct (eqc a LF) eqn:HLF.
    + destruct after_cr.
      * rewrite IH by auto. rewrite (Hcr eq_refl).
        destruct text as [|b t]; [|rewrite Hend; reflexivity].
        unfold ends_unterminated. cbn [rev app]. rewrite HLF. reflexivity.
      * cbn [length]. rewrite IH by discriminate.
        destruct text as [|b t]; [|rewrite Hend; lia].
        unfold ends_unterminated. cbn [rev app]. rewrite HLF. reflexivity.
    + destruct (eqc a CR) eqn:HCR.
      * cbn [length]. rewrite IH by auto.
        destruct text as [|b t]; [|rewrite Hend; lia].
        unfold ends_unterminated. cbn [rev app]. rewrite HLF, HCR. reflexivity.
      * rewrite IH by discriminate.
        destruct text as [|b t]; [|rewrite Hend; lia].
        unfold ends_unterminated. cbn [rev app length]. rewrite HLF, HCR.
        reflexivity.
Qed.

Lemma readlines_length (text : str) :
  length (readlines text)
  = count_line_ends false text + (if ends_unterminated text then 1 else 0).
Proof.
  unfold readlines. rewrite readlines_aux_length by discriminate.
  destruct text; reflexivity.
Qed.

(** C9: after loading and parsing a file, [total_lines] is the number of
    lines read, that is the number of line ends of the file plus one for a
    last line without a line end, and every record of the eight lists has
    a line number between 1 and [total_lines]. *)
Theorem line_numbers_within_file (path text : str) :
  exists self,
    analyse path (Some text) = Ok self
    /\ lines self = readlines text
    /\ total_lines self = length (lines self)
    /\ total_lines self
       = count_line_ends false text
         + (if ends_unterminated text then 1 else 0)
    /\ line_numbers_within 1 (total_lines self) self.
Proof.
  unfold analyse, load. cbn [bind]. unfold parse.
  set (self0 := set_lines (init path) (readlines text)
                  (length (readlines text))).
  destruct (parse_loop_ok (lines self0) 1 self0) as (self & Hp).
  exists self. split; [exact Hp|].
  assert (H0 : line_numbers_within 1 (length (readlines text)) self0)
    by (unfold line_numbers_within; simpl; repeat split; constructor).
  assert (Hlen : 1 + length (lines self0) <= S (length (readlines text)))
    by (unfold self0; cbn [lines set_lines]; lia).
  destruct (@parse_loop_line_numbers
              {| first_line := 1; last_line := length (readlines text);
                 line_count := length (readlines text);
                 file_lines := readlines text |}
              (lines self0) 1 self0 self (le_n 1) Hlen H0 eq_refl eq_refl Hp)
    as (H1 & H2 & H3).
  rewrite H2, H3. split; [reflexivity|]. split; [reflexivity|].
  split; [apply readlines_length | exact H1].
Qed.

(** ** Keywords *)

Lemma is_prefix_split (w s : str) :
  is_prefix w s = true -> exists post, s = w ++ post.
Proof.
  revert s. induction w as [|a w IH]; intros s H.
  - now exists s.
  - destruct s as [|b s]; [discriminate|]. cbn [is_prefix] in H.
    apply andb_true_iff in H as [Hab H]. apply eqc_eq in Hab. subst b.
    destruct (IH _ H) as (post & ->). now exists post.
Qed.

Lemma contains_split (w s : str) :
  contains w s = true -> exists pre post, s = pre ++ w ++ post.
Proof.
  induction s as [|b s IH]; cbn [contains]; intros H.
  - rewrite orb_false_r in H. apply is_prefix_split in H as (post & ->).
    now exists [], post.
  - apply orb_true_iff in H as [H|H].
    + apply is_prefix_split in H as (post & ->). now exists [], post.
    + destruct (IH H) as (pre & post & ->). now exists (b :: pre), post.
Qed.

(** A word under [re.IGNORECASE] reads any text with the same lower-case
    form. *)
Lemma sem_ilit (w : str) :
  forall mid post p c,
    map lower mid = map lower w ->
    sem (ilit w) p (mid ++ post) c (prev_after mid p) post c.
Proof.
  unfold ilit.
  induction w as [|a w IH]; intros mid post p c H.
  - destruct mid; [|discriminate]. simpl. auto.
  - destruct mid as [|b mid]; [discriminate|].
    cbn [map] in H. injection H as Hb H.
    assert (Hchr : sem (ichr a) p ((b :: mid) ++ post) c (Some b) (mid ++ post) c).
    { cbn [ichr sem app]. exists b. repeat split; auto.
      unfold eqc_ci, eqc. rewrite Hb. apply Ascii.eqb_refl. }
    destruct w as [|a' w].
    + destruct mid; [|discriminate]. exact Hchr.
    + change (seq (map ichr (a :: a' :: w)))
        with (Seq (ichr a) (seq (map ichr (a' :: w)))).
      cbn [sem]. exists (Some b), (mid ++ post), c. split; [exact Hchr|].
      apply (IH mid post (Some b) c H).
Qed.

Lemma refused_occurs (line : str) :
  contains_ci "refused" line = true ->
  exists pre mid post,
    line = pre ++ mid ++ post
    /\ forall p c, sem (ilit "REFUSED") p (mid ++ post) c (prev_after mid p) post c.
Proof.
  unfold contains_ci. intros H.
  apply contains_split in H as (pre' & post' & H).
  apply map_eq_app in H as (pre & rest & -> & _ & H).
  apply map_eq_app in H as (mid & post & -> & Hmid & _).
  exists pre, mid, post. split; auto. intros p c. apply sem_ilit.
  rewrite Hmid. reflexivity.
Qed.

Lemma refused_matches (line : str) :
  contains_ci "refused" line = true ->
  matches_pat firewall_deny line = true /\ matches_pat dns_failure line = true.
Proof.
  intros H. destruct (refused_occurs line H) as (pre & mid & post & -> & Hsem).
  split; apply matches_pat_iff; exists pre, mid, post, []; split; auto;
    exists (prev_after mid (prev_after pre None)).
  - change (PATTERNS firewall_deny) with
      (Alt (ilit "DROP") (Alt (ilit "DENY") (Alt (ilit "BLOCK")
         (Alt (ilit "REJECT") (ilit "REFUSED"))))).
    cbn [sem]. right. right. right. right. apply Hsem.
  - change (PATTERNS dns_failure) with
      (Alt (ilit "NXDOMAIN") (Alt (ilit "SERVFAIL") (Alt (ilit "REFUSED")
         (alts [seq [ilit "no"; ws1; ilit "server"; optc (eqc_ci "s"); ws1;
                     ilit "could"; ws1; ilit "be"; ws1; ilit "reached"];
                seq [ilit "time"; optc (eqc_ci "d"); ws0; ilit "out"];
                seq [ilit "resolution"; ws1; ilit "failed"]])))).
    cbn [sem]. right. right. left. apply Hsem.
Qed.

Lemma check_dns_failure (line : str) (line_num : nat) (self : NetworkLogParser) :
  matches_pat dns_failure line = true ->
  let self' := _check_dns line line_num self in
  dns_failures self' = dns_failures self ++ [(line_num, strip line)]
  /\ denied_entries self' = denied_entries self
  /\ denied_ips self' = denied_ips self.
Proof.
  intros H. unfold _check_dns. rewrite H. simpl. auto.
Qed.

Lemma check_firewall_keeps_dns (line : str) (line_num : nat)
    (self : NetworkLogParser) :
  dns_failures (_check_firewall line line_num self) = dns_failures self.
Proof.
  unfold _check_firewall.
  destruct (matches_pat firewall_deny line).
  - cbv zeta.
    destruct (denied_loop_spec (findall ip_address "ip" line)
                (set_denied_entries self
                   (denied_entries self ++ [(line_num, strip line)])))
      as (_ & _ & _ & _ & H & _).
    cbv zeta in H. rewrite H. reflexivity.
  - destruct (matches_pat firewall_allow line); reflexivity.
Qed.

(** C10: on a line that contains "refused" in any letter case both the
    firewall-deny and the DNS-failure recognizer match, whatever the rest
    of the line says; the firewall and DNS checks then record the line as
    a deny entry and as a DNS failure, and every IPv4 literal on it adds
    one to its count in the denied-IP table. *)
Theorem refused_is_deny_and_dns_failure (line : str) (line_num : nat)
    (self : NetworkLogParser) :
  contains_ci "refused" line = true ->
  let self' := _check_dns line line_num (_check_firewall line line_num self) in
  matches_pat firewall_deny line = true
  /\ matches_pat dns_failure line = true
  /\ denied_entries self' = denied_entries self ++ [(line_num, strip line)]
  /\ dns_failures self' = dns_failures self ++ [(line_num, strip line)]
  /\ forall ip,
       get (denied_ips self') ip
       = get (denied_ips self) ip
         + count_occ str_eq_dec (findall ip_address "ip" line) ip.
Proof.
  intros H. destruct (refused_matches line H) as [Hd Hf]. cbv zeta.
  destruct (check_dns_failure line line_num
              (_check_firewall line line_num self) Hf) as (H1 & H2 & H3).
  cbv zeta in H1, H2, H3.
  destruct (check_firewall_deny line line_num self Hd) as (H4 & _ & H5).
  cbv zeta in H4, H5.
  rewrite H1, H2, H3, H4, check_firewall_keeps_dns. auto.
Qed.

(** An instance: a line of an SSH daemon, neither firewall nor DNS. *)
Lemma refused_is_deny_and_dns_failure_witness :
  let line : str := "sshd[311]: Connection Refused by 10.0.0.5 port 22" in
  let self' := _check_dns line 4 (_check_firewall line 4 (init "auth.log")) in
  contains_ci "refused" line = true
  /\ denied_entries self' = [(4, line)]
  /\ dns_failures self' = [(4, line)]
  /\ get (denied_ips self') "10.0.0.5" = 1.
Proof.
  cbv zeta.
  destruct (@refused_is_deny_and_dns_failure
              "sshd[311]: Connection Refused by 10.0.0.5 port 22" 4
              (init "auth.log") eq_refl) as (_ & _ & H1 & H2 & H3).
  split; [reflexivity|]. split; [exact H1|]. split; [exact H2|].
  exact (H3 "10.0.0.5").
Defined.

(** ** The syslog timestamp *)

Lemma prev_after_some (t : str) (a : ascii) : prev_after t (Some a) <> None.
Proof.
  revert a. induction t as [|b t IH]; intros a; simpl; [discriminate|].
  apply IH.
Qed.

Lemma prev_after_none (t : str) : prev_after t None = None -> t = [].
Proof.
  destruct t as [|a t]; auto. simpl. intros H.
  exfalso. exact (prev_after_some t a H).
Qed.

Lemma sem_rep_intro (f : ascii -> bool) (lo : nat) (hi : option nat)
    (g : bool) (t s' : str) (p : option ascii) (c : caps) :
  forallb f t = true -> lo <= length t -> within hi (length t) ->
  sem (Rep f lo hi g) p (t ++ s') c (prev_after t p) s' c.
Proof. intros. exists t. repeat split; auto. Qed.

Lemma sem_chr_intro (a : ascii) (s' : str) (p : option ascii) (c : caps) :
  sem (chr a) p (a :: s') c (Some a) s' c.
Proof.
  exists a. repeat split; auto. unfold eqc. apply Ascii.eqb_refl.
Qed.

Lemma sem_seq_intro (r1 r2 : regex) p s c p1 s1 c1 p' s' c' :
  sem r1 p s c p1 s1 c1 -> sem r2 p1 s1 c1 p' s' c' ->
  sem (Seq r1 r2) p s c p' s' c'.
Proof. intros H1 H2. exists p1, s1, c1. auto. Qed.

Lemma sem_grp_intro (name : string) (r : regex) p s c p' s' c1 :
  sem r p s c p' s' c1 ->
  sem (Grp name r) p s c p' s'
    ((name, firstn (length s - length s') s) :: c1).
Proof. intros H. exists c1. auto. Qed.

Lemma sem_bol_intro (s : str) (c : caps) : sem Bol None s c None s c.
Proof. simpl. auto. Qed.

Lemma exact_length (n m : nat) : n <= m -> within (Some n) m -> m = n.
Proof. simpl. lia. Qed.

Lemma syslog_match_shape (line : str) :
  matches_pat timestamp_syslog line = true -> syslog_shape line.
Proof.
  intros H. apply matches_pat_iff in H as (pre & mid & post & c & -> & p' & H).
  cbn [PATTERNS seq sem exactly between ws1 plus chr] in H.
  destruct H as (p0 & s0 & c0 & (Hbol & -> & -> & ->) & c9 & H & _).
  apply prev_after_none in Hbol. subst pre.
  destruct H as
    (p1 & s1 & c1 & (w & E1 & F1 & L1 & U1 & _)
     & p2 & s2 & c2 & (b1 & E2 & F2 & L2 & _)
     & p3 & s3 & c3 & (d & E3 & F3 & L3 & U3 & _)
     & p4 & s4 & c4 & (b2 & E4 & F4 & L4 & _)
     & p5 & s5 & c5 & (hh & E5 & F5 & L5 & U5 & _)
     & p6 & s6 & c6 & (k1 & E6 & F6 & _)
     & p7 & s7 & c7 & (mm & E7 & F7 & L7 & U7 & _)
     & p8 & s8 & c8 & (k2 & E8 & F8 & _)
     & (ss & E9 & F9 & L9 & U9 & _)).
  apply eqc_eq in F6, F8. subst k1 k2.
  exists w, b1, d, b2, hh, mm, ss, post.
  split.
  { cbn [app]. rewrite E1, E2, E3, E4, E5, E6, E7, E8, E9. reflexivity. }
  pose proof (exact_length L1 U1). pose proof (exact_length L5 U5).
  pose proof (exact_length L7 U7). pose proof (exact_length L9 U9).
  simpl in U3. repeat split; auto.
Qed.

Lemma syslog_shape_match (line : str) :
  syslog_shape line -> matches_pat timestamp_syslog line = true.
Proof.
  intros (w & b1 & d & b2 & hh & mm & ss & rest & -> & Lw & Fw & Lb1 & Fb1
          & [Ld Ud] & Fd & Lb2 & Fb2 & Lh & Fh & Lm & Fm & Ls & Fs).
  assert (H : search_from (PATTERNS timestamp_syslog) None
                ([] ++ w ++ b1 ++ d ++ b2 ++ hh ++ ":" ++ mm ++ ":" ++ ss ++ rest)
              <> None).
  { eapply search_from_complete.
    cbn [PATTERNS seq prev_after fold_left].
    unfold exactly, between, ws1, plus.
    cbn [app list_ascii_of_string].
    eapply sem_seq_intro; [apply sem_bol_intro|].
    apply sem_grp_intro.
    repeat (eapply sem_seq_intro;
            [first [apply sem_chr_intro
                   | apply sem_rep_intro; simpl; auto; lia]|]).
    apply sem_rep_intro with (s' := rest); simpl; auto; lia. }
  unfold matches_pat, search. cbn [app] in H.
  destruct (search_from (PATTERNS timestamp_syslog) None _);
    [reflexivity | contradiction].
Qed.

(** C4 (as the code has it): [timestamp_syslog] matches a line exactly when
    the line starts with three word characters (letters, digits or
    underscore, not necessarily a month abbreviation), then one or more
    blanks, one or two digits, one or more blanks, and three pairs of
    digits separated by colons. *)
Theorem syslog_matches_iff_shape (line : str) :
  matches_pat timestamp_syslog line = true <-> syslog_shape line.
Proof.
  split; [apply syslog_match_shape | apply syslog_shape_match].
Qed.

(** An instance: a syslog line with a blank-padded day. *)
Lemma syslog_matches_iff_shape_witness :
  matches_pat timestamp_syslog "May  1 10:15:00 gw kernel: up" = true
  /\ syslog_shape "May  1 10:15:00 gw kernel: up".
Proof.
  split; [reflexivity|].
  exact (proj1 (syslog_matches_iff_shape "May  1 10:15:00 gw kernel: up")
           eq_refl).
Defined.

(** C4 (counterexample to the wording of the specification): the line
    below is matched by [timestamp_syslog] although its first three
    characters are not a month abbreviation. *)
Lemma syslog_matches_non_month :
  matches_pat timestamp_syslog "foo 12 10:15:00 up" = true
  /\ starts_with_month "foo 12 10:15:00 up" = false.
Proof. split; reflexivity. Qed.

(** ** The report *)

Lemma in_section_if (T : Type) (collection : list T) (title : str)
    (rows : list str) (x : str) :
  In x (section_if collection title rows) ->
  (length collection =? 0) = false /\ (x = title \/ In x rows).
Proof.
  destruct collection; simpl; [tauto|]. intros [<-|H]; auto.
Qed.

(** A line of the report is a row (it starts with a blank), a border, the
    summary title, the closing border, or the title of a section whose
    collection is not empty. *)
Lemma report_line_kinds (self : NetworkLogParser) (top_n : Z) (now x : str) :
  In x (report_sections self top_n now) ->
  (exists y, x = " "%char :: y) \/ (exists y, x = "="%char :: y)
  \/ x = nl ++ "[SUMMARY]" \/ x = nl ++ border
  \/ exists sec, collection_empty self sec = false
                 /\ x = section_title top_n sec.
Proof.
  unfold report_sections. rewrite !in_app_iff.
  intros [H|[H|[H|[H|[H|[H|[H|[H|[H|[H|[H|[H|[H|H]]]]]]]]]]]]].
  - cbn [header_lines In] in H.
    destruct H as [<-|[<-|[<-|[<-|[<-|[<-|[]]]]]]];
      first [left; eexists; reflexivity | right; left; eexists; reflexivity].
  - cbn [summary_lines In] in H.
    destruct H as [<-|[<-|[<-|[<-|[<-|[<-|[<-|[<-|[]]]]]]]]];
      first [left; eexists; reflexivity | right; right; left; reflexivity].
  - apply in_section_if in H as [Hne [->|H]].
    + do 4 right. exists SecDeniedIps. auto.
    + apply in_map_iff in H as (z & <- & _). left. eexists. reflexivity.
  - apply in_section_if in H as [Hne [->|H]].
    + do 4 right. exists SecSourceIps. auto.
    + apply in_map_iff in H as (z & <- & _). left. eexists. reflexivity.
  - apply in_section_if in H as [Hne [->|H]].
    + do 4 right. exists SecDestIps. auto.
    + apply in_map_iff in H as (z & <- & _). left. eexists. reflexivity.
  - apply in_section_if in H as [Hne [->|H]].
    + do 4 right. exists SecPorts. auto.
    + apply in_map_iff in H as (z & <- & _). left. eexists. reflexivity.
  - apply in_section_if in H as [Hne [->|H]].
    + do 4 right. exists SecTimeline. auto.
    + apply in_map_iff in H as (z & <- & _). left. eexists. reflexivity.
  - apply in_section_if in H as [Hne [->|H]].
    + do 4 right. exists SecConnectionErrors. auto.
    + apply in_map_iff in H as (z & <- & _). left. eexists. reflexivity.
  - apply in_section_if in H as [Hne [->|H]].
    + do 4 right. exists SecDnsFailures. auto.
    + apply in_map_iff in H as (z & <- & _). left. eexists. reflexivity.
  - apply in_section_if in H as [Hne [->|H]].
    + do 4 right. exists SecHighLatency. auto.
    + apply in_map_iff in H as (z & <- & _). left. eexists. reflexivity.
  - apply in_section_if in H as [Hne [->|H]].
    + do 4 right. exists SecPacketLoss. auto.
    + apply in_map_iff in H as (z & <- & _). left. eexists. reflexivity.
  - apply in_section_if in H as [Hne [->|H]].
    + do 4 right. exists SecDhcpEvents. auto.
    + apply in_map_iff in H as (z & <- & _). left. eexists. reflexivity.
  - apply in_section_if in H as [Hne [->|H]].
    + do 4 right. exists SecDeniedEntries. auto.
    + apply in_map_iff in H as (z & <- & _). left. eexists. reflexivity.
  - cbn [footer_lines In] in H.
    destruct H as [<-|[<-|[<-|[]]]];
      first [left; eexists; reflexivity
            | right; left; eexists; reflexivity
            | do 3 right; left; reflexivity].
Qed.

(** The titles of two sections differ, whatever [top_n] is. *)
Lemma section_title_inj (top_n : Z) (a b : section_id) :
  section_title top_n a = section_title top_n b -> a = b.
Proof.
  unfold section_title, top_title, sample_title.
  generalize (str_of_Z top_n). intros d H.
  destruct a, b; try reflexivity; exfalso; simpl in H;
    first [ discriminate H
          | injection H as H; apply app_inv_head in H; discriminate H ].
Qed.

Lemma section_title_head (top_n : Z) (sec : section_id) :
  exists y, section_title top_n sec = LF :: "["%char :: y.
Proof. destruct sec; eexists; reflexivity. Qed.

Lemma section_title_not_fixed (top_n : Z) (sec : section_id) :
  section_title top_n sec <> nl ++ "[SUMMARY]"
  /\ section_title top_n sec <> nl ++ border.
Proof.
  unfold section_title, top_title, sample_title.
  generalize (str_of_Z top_n). intros d.
  split; intros H; destruct sec; simpl in H; discriminate H.
Qed.

Lemma empty_section_not_rendered (self : NetworkLogParser) (top_n : Z)
    (now : str) (sec : section_id) :
  collection_empty self sec = true ->
  section_lines self top_n sec = []
  /\ ~ In (section_title top_n sec) (report_sections self top_n now).
Proof.
  intros He. split.
  - destruct sec; simpl in He; apply Nat.eqb_eq in He;
      apply length_zero_iff_nil in He; cbn [section_lines];
      unfold denied_ips_section, source_ips_section, dest_ips_section,
        ports_section, timeline_section, connection_errors_section,
        dns_failures_section, high_latency_section, packet_loss_section,
        dhcp_events_section, denied_entries_section;
      rewrite He; reflexivity.
  - intros Hin. apply report_line_kinds in Hin.
    destruct (section_title_head top_n sec) as (y & Hy).
    destruct (section_title_not_fixed top_n sec) as [Hs Hb].
    destruct Hin as [(z & Hz)|[(z & Hz)|[Hz|[Hz|(sec' & Hne & Hz)]]]];
      try (rewrite Hy in Hz; discriminate Hz); try contradiction.
    apply section_title_inj in Hz. subst sec'. congruence.
Qed.

(** Only [_extract_timestamp_bucket] writes to the timeline. *)
Section TimelineFrame.
Variable line : str.
Variable line_num : nat.

Lemma extract_ips_timeline self :
  error_timeline (_extract_ips line self) = error_timeline self.
Proof.
  unfold _extract_ips.
  apply (fold_left_preserves
           (fun s => error_timeline s = error_timeline self)); auto.
  intros a _ Ha. destruct (1 <=? _); destruct (2 <=? _); exact Ha.
Qed.

Lemma extract_ports_timeline self :
  error_timeline (_extract_ports line self) = error_timeline self.
Proof.
  unfold _extract_ports.
  apply (fold_left_preserves
           (fun s => error_timeline s = error_timeline self)); auto.
Qed.

Lemma check_firewall_timeline self :
  error_timeline (_check_firewall line line_num self) = error_timeline self.
Proof.
  unfold _check_firewall. destruct (matches_pat firewall_deny line).
  - apply (fold_left_preserves
             (fun s => error_timeline s = error_timeline self)); auto.
  - destruct (matches_pat firewall_allow line); reflexivity.
Qed.

Lemma check_dns_timeline self :
  error_timeline (_check_dns line line_num self) = error_timeline self.
Proof.
  unfold _check_dns. destruct (matches_pat dns_failure line); auto.
  destruct (matches_pat dns_query line); reflexivity.
Qed.

Lemma check_connection_errors_timeline self :
  error_timeline (_check_connection_errors line line_num self)
  = error_timeline self.
Proof.
  unfold _check_connection_errors.
  destruct (matches_pat connection_error line); reflexivity.
Qed.

Lemma check_latency_timeline self self' :
  _check_latency line line_num self = Ok self' ->
  error_timeline self' = error_timeline self.
Proof.
  unfold _check_latency.
  destruct (search (PATTERNS latency) line); [|congruence].
  destruct (py_float _); [|discriminate].
  destruct (gt_int _ _); intros E; inversion E; reflexivity.
Qed.

Lemma check_packet_loss_timeline self self' :
  _check_packet_loss line line_num self = Ok self' ->
  error_timeline self' = error_timeline self.
Proof.
  unfold _check_packet_loss.
  destruct (search (PATTERNS packet_loss) line); [|congruence].
  destruct (py_float _); [|discriminate].
  destruct (gt_int _ _); intros E; inversion E; reflexivity.
Qed.

Lemma check_dhcp_timeline self :
  error_timeline (_check_dhcp line line_num self) = error_timeline self.
Proof.
  unfold _check_dhcp. destruct (matches_pat dhcp_event line); reflexivity.
Qed.

Lemma parse_line_timeline self self' :
  timestamp_bucket line = None ->
  parse_line line_num line self = Ok self' ->
  error_timeline self' = error_timeline self.
Proof.
  intros Hts Hp.
  destruct (parse_line_steps line_num line self) as (s1 & s2 & H1 & H2 & H3).
  rewrite H3 in Hp. inversion Hp; subst self'.
  pose proof (extract_timestamp_bucket_spec line
                (_check_dhcp line line_num s2)) as Hb.
  cbv zeta in Hb. rewrite Hts in Hb.
  rewrite Hb, check_dhcp_timeline, (check_packet_loss_timeline _ H2),
    (check_latency_timeline _ H1).
  unfold before_numeric.
  now rewrite check_connection_errors_timeline, check_dns_timeline,
    check_firewall_timeline, extract_ports_timeline, extract_ips_timeline.
Qed.

End TimelineFrame.

Lemma parse_loop_timeline (ls : list str) :
  forall line_num self self',
    (forall line, In line ls -> timestamp_bucket line = None) ->
    parse_loop line_num ls self = Ok self' ->
    error_timeline self' = error_timeline self.
Proof.
  induction ls as [|line ls IH]; intros n self self' Hts Hp;
    cbn [parse_loop] in Hp.
  - inversion Hp; reflexivity.
  - destruct (parse_line n line self) as [s| |] eqn:E; try discriminate.
    cbn [bind] in Hp.
    rewrite (IH (S n) s self') by (auto using in_cons).
    eapply parse_line_timeline; [|exact E]. apply Hts, in_eq.
Qed.

Lemma no_timestamp_no_timeline (path text : str) :
  (forall line, In line (readlines text) -> timestamp_bucket line = None) ->
  exists self,
    analyse path (Some text) = Ok self /\ error_timeline self = [].
Proof.
  intros Hts. unfold analyse, load. cbn [bind]. unfold parse.
  set (self0 := set_lines (init path) (readlines text)
                  (length (readlines text))).
  destruct (parse_loop_ok (lines self0) 1 self0) as (self & Hp).
  exists self. split; [exact Hp|].
  rewrite (@parse_loop_timeline (lines self0) 1 self0 self Hts Hp).
  reflexivity.
Qed.

(** C7: a section of the report whose collection is empty contributes no
    line, and its title is not among the lines of the report.  A file
    without any recognizable timestamp leaves the timeline empty, so its
    report has no error-timeline section; on the two-line file of
    Scenario 4 the summary counts one deny entry and one connection error
    all the same. *)
Theorem empty_sections_are_omitted :
  (forall (self : NetworkLogParser) (top_n : Z) (now : str) (sec : section_id),
     collection_empty self sec = true ->
     section_lines self top_n sec = []
     /\ ~ In (section_title top_n sec) (report_sections self top_n now))
  /\ (forall (path text : str) (top_n : Z) (now : str),
        (forall line, In line (readlines text) -> timestamp_bucket line = None) ->
        exists self,
          analyse path (Some text) = Ok self
          /\ error_timeline self = []
          /\ timeline_section self = []
          /\ ~ In (section_title top_n SecTimeline)
                  (report_sections self top_n now))
  /\ (exists self,
        analyse "fw.log" (Some scenario4) = Ok self
        /\ length (denied_entries self) = 1
        /\ length (connection_errors self) = 1
        /\ error_timeline self = []).
Proof.
  split; [exact empty_section_not_rendered|]. split.
  - intros path text top_n now Hts.
    destruct (no_timestamp_no_timeline path text Hts) as (self & Ha & He).
    exists self. split; auto. split; auto.
    apply (empty_section_not_rendered self top_n now SecTimeline).
    simpl. now rewrite He.
  - eexists. split; [vm_compute; reflexivity|]. repeat split.
Qed.

(** Instances: the ports section of a fresh parser, and the timeline
    section for the file of Scenario 4. *)
Lemma empty_sections_are_omitted_witness :
  collection_empty (init "fw.log") SecPorts = true
  /\ ~ In (section_title 10%Z SecPorts)
          (report_sections (init "fw.log") 10%Z "2024-05-01 10:15:00")
  /\ (forall line, In line (readlines scenario4) -> timestamp_bucket line = None)
  /\ exists self,
       analyse "fw.log" (Some scenario4) = Ok self
       /\ ~ In (section_title 10%Z SecTimeline)
               (report_sections self 10%Z "2024-05-01 10:15:00").
Proof.
  assert (Hts : forall line, In line (readlines scenario4) ->
                             timestamp_bucket line = None).
  { intros line [<-|[<-|[]]]; reflexivity. }
  split; [reflexivity|].
  split; [exact (proj2 (proj1 empty_sections_are_omitted (init "fw.log") 10%Z
                          "2024-05-01 10:15:00" SecPorts eq_refl))|].
  split; [exact Hts|].
  destruct (proj1 (proj2 empty_sections_are_omitted) "fw.log" scenario4 10%Z
              "2024-05-01 10:15:00" Hts) as (self & Ha & _ & _ & Hn).
  exists self. split; [exact Ha | exact Hn].
Defined.

(** ** Reproducible output *)

(** The ranking of [most_common] keeps keys with equal counts in the order
    of the table. *)
Lemma filter_insert_sorted (v : nat) (x : str * nat) (l : list (str * nat)) :
  filter (has_count v) (insert_sorted by_count_desc x l) = filter (has_count v) (x :: l).
Proof.
  induction l as [|y l IH]; [reflexivity|].
  cbn [insert_sorted]. unfold by_count_desc at 1.
  destruct (Nat.leb_spec (snd y) (snd x)) as [Hle|Hlt]; [reflexivity|].
  cbn [filter] in *. rewrite IH. unfold has_count.
  destruct (Nat.eqb_spec (snd x) v); destruct (Nat.eqb_spec (snd y) v);
    try reflexivity. lia.
Qed.

Lemma filter_sorted (v : nat) (c : Counter) :
  filter (has_count v) (sorted by_count_desc c) = filter (has_count v) c.
Proof.
  induction c as [|x c IH]; [reflexivity|].
  cbn [sorted fold_right]. fold (sorted by_count_desc c).
  rewrite filter_insert_sorted. cbn [filter]. now rewrite IH.
Qed.

Lemma most_common_stable (n : Z) (c : Counter) :
  exists ranked,
    most_common n c = firstn (Z.to_nat n) ranked
    /\ forall v, filter (fun item => snd item =? v) ranked
                 = filter (fun item => snd item =? v) c.
Proof.
  exists (sorted by_count_desc c). split; [reflexivity|].
  intros v. apply filter_sorted.
Qed.

(** The text of the report around the time of generation. *)
Lemma report_around_clock (self : NetworkLogParser) (top_n : Z) :
  exists pre post,
    forall now, report self top_n now = pre ++ "  Generated: " ++ now ++ post.
Proof.
  exists (border ++ nl ++ "  NETWORK LOG TROUBLESHOOTING REPORT" ++ nl
          ++ ("  Source: " ++ filepath self) ++ nl
          ++ ("  Total lines parsed: " ++ str_of_nat (total_lines self)) ++ nl).
  exists (nl ++ join nl
            (border :: summary_lines self
             ++ denied_ips_section self top_n ++ source_ips_section self top_n
             ++ dest_ips_section self top_n ++ ports_section self top_n
             ++ timeline_section self
             ++ connection_errors_section self top_n
             ++ dns_failures_section self top_n
             ++ high_latency_section self top_n
             ++ packet_loss_section self top_n
             ++ dhcp_events_section self top_n
             ++ denied_entries_section self top_n
             ++ footer_lines)).
  intros now. unfold report, report_sections.
  cbn [header_lines summary_lines app join].
  rewrite <- !app_assoc. reflexivity.
Qed.

(** C8: the output of the pipeline on a given file and [top_n] is the same
    on every run apart from the text after "Generated: " (a missing file
    ends every run with exit status 1); and the ranking shown by a top-N
    section is the first [top_n] items of a list in which the keys of equal
    count stand in the order of their first occurrence, so it is the same
    on every run as well. *)
Theorem report_is_reproducible :
  (forall (path : str) (file : option str) (top_n : Z),
     (exists pre post,
        forall now,
          main path file top_n now
          = Ok (pre ++ "  Generated: " ++ now ++ post))
     \/ (file = None /\ forall now, main path file top_n now = SysExit 1))
  /\ (forall (n : Z) (c : Counter),
        exists ranked,
          most_common n c = firstn (Z.to_nat n) ranked
          /\ forall v, filter (fun item => snd item =? v) ranked
                       = filter (fun item => snd item =? v) c).
Proof.
  split; [|exact most_common_stable].
  intros path [text|] top_n.
  - left. unfold main, analyse, load. cbn [bind]. unfold parse.
    set (self0 := set_lines (init path) (readlines text)
                  (length (readlines text))).
    destruct (parse_loop_ok (lines self0) 1 self0) as (self & ->).
    cbn [bind].
    destruct (report_around_clock self top_n) as (pre & post & H).
    exists pre, post. intros now. now rewrite H.
  - right. split; reflexivity.
Qed.
